(** * The image scripts of the website: a shallow embedding

    Two standalone Python scripts are modelled here:
    - [scripts/generate-og-image.py] draws the Open Graph preview image and
      writes it as a JPEG;
    - [scripts/optimize-images.py] re-encodes a fixed list of image files
      in place and reports the bytes saved.

    Both scripts are straight-line sequences of calls into Pillow and
    [os.path].  The embedding keeps the scripts' own control flow (loops,
    [try]/[except], early [continue], local variables) as monadic code over
    an explicit world: the file system and the chronological trace of what
    the process printed and which files it touched.  What Pillow computes
    (decoding, encoding, font loading, glyph rendering) is taken as a
    parameter; what the scripts themselves decide is written out. *)

From Stdlib Require Import ZArith QArith Lia List Ascii String.
From stdpp Require Import base tactics option strings numbers gmap list.

Local Open Scope string_scope.
Local Open Scope list_scope.
Local Open Scope Z_scope.

(** ** Python run-time values *)

(** The exceptions a run can meet.  All of them are subclasses of
    [Exception]; [ModuleNotFoundError] is a subclass of [ImportError]. *)
Inductive exn : Type :=
  | ImportError
  | ModuleNotFoundError
  | FileNotFoundError
  | OSError
  | UnidentifiedImageError
  | ValueError
  | ZeroDivisionError
  | UnboundLocalError.

(** [isinstance(e, ImportError)] *)
Definition is_ImportError (e : exn) : bool :=
  match e with
  | ImportError | ModuleNotFoundError => true
  | _ => false
  end.

Inductive result (A : Type) : Type :=
  | Ok (a : A)
  | Raise (e : exn).
Arguments Ok {A} a.
Arguments Raise {A} e.

Abbreviation bytes := (list Byte.byte).

(** ** Pillow images *)

Inductive mode : Type :=
  | M_1 | M_L | M_LA | M_I | M_P | M_PA | M_RGB | M_RGBA | M_CMYK | M_YCbCr.

Global Instance mode_eq_dec : EqDecision mode.
Proof. solve_decision. Defined.

(** A pixel as Pillow stores it: four 8-bit slots.  Single-band modes use
    the first slot, ["LA"] keeps the grey level in the first three slots and
    alpha in the fourth, ["RGB"] pads the fourth slot. *)
Record pixel : Type := Pixel { band0 : Z; band1 : Z; band2 : Z; band3 : Z }.

Global Instance pixel_eq_dec : EqDecision pixel.
Proof. solve_decision. Defined.

Inductive format : Type := PNG | JPEG | WEBP.

Global Instance format_eq_dec : EqDecision format.
Proof. solve_decision. Defined.

Record image : Type := Image {
  im_mode : mode;
  im_width : Z;
  im_height : Z;
  im_px : Z -> Z -> pixel;              (* pixel at column x, row y *)
  im_palette : list pixel;              (* RGBA entries of a "P" image *)
  im_info : gmap string bytes           (* EXIF, ICC profile, dpi, ... *)
}.

Definition im_size (im : image) : Z * Z := (im_width im, im_height im).

Definition in_bounds (w h x y : Z) : bool :=
  bool_decide (0 <= x < w) && bool_decide (0 <= y < h).

(** What [getdata()] yields for one pixel: the bands of the mode. *)
Definition bands (m : mode) (p : pixel) : list Z :=
  match m with
  | M_1 | M_L | M_I | M_P => [band0 p]
  | M_LA | M_PA => [band0 p; band3 p]
  | M_RGB | M_YCbCr => [band0 p; band1 p; band2 p]
  | M_RGBA | M_CMYK => [band0 p; band1 p; band2 p; band3 p]
  end.

(** What [putdata()] stores for one value of the sequence. *)
Definition unbands (m : mode) (v : list Z) : pixel :=
  match m, v with
  | (M_1 | M_L | M_I | M_P), [a] => Pixel a 0 0 0
  | (M_LA | M_PA), [a; b] => Pixel a a a b
  | (M_RGB | M_YCbCr), [a; b; c] => Pixel a b c 255
  | (M_RGBA | M_CMYK), [a; b; c; d] => Pixel a b c d
  | _, _ => Pixel 0 0 0 0
  end.

(** [Image.new(mode, size, color)]: a fresh image, no metadata. *)
Definition Image_new (m : mode) (size : Z * Z) (color : pixel) : image :=
  {| im_mode := m; im_width := size.1; im_height := size.2;
     im_px := fun _ _ => color; im_palette := []; im_info := ∅ |}.

Definition black : pixel := Pixel 0 0 0 0.

(** [list(img.getdata())]: the pixels row by row. *)
Definition getdata (im : image) : list (list Z) :=
  let w := im_width im in
  (fun i => bands (im_mode im) (im_px im (i mod w) (i / w)))
    <$> seqZ 0 (Z.max 0 w * Z.max 0 (im_height im)).

(** [img.putdata(data)]: copies the sequence into the image from the upper
    left corner; pixels past the end of the sequence keep their value. *)
Definition putdata (im : image) (data : list (list Z)) : image :=
  let w := im_width im in
  let h := im_height im in
  {| im_mode := im_mode im; im_width := w; im_height := h;
     im_px := fun x y =>
       if in_bounds w h x y then
         match data !! Z.to_nat (y * w + x) with
         | Some v => unbands (im_mode im) v
         | None => im_px im x y
         end
       else im_px im x y;
     im_palette := im_palette im; im_info := im_info im |}.

(** The idiom both scripts' comments call "creating a new image with just
    the pixel data":
<<
    data = list(img.getdata())
    image_without_exif = Image.new(img.mode, img.size)
    image_without_exif.putdata(data)
>> *)
Definition without_exif (img : image) : image :=
  let data := getdata img in
  let image_without_exif := Image_new (im_mode img) (im_size img) black in
  putdata image_without_exif data.

(** Keyword arguments of [Image.save] that the scripts pass; an absent
    keyword is [None] (or [false] for the two flags, Pillow's default). *)
Record save_params : Type := SaveParams {
  sp_quality : option Z;
  sp_optimize : bool;
  sp_progressive : bool;
  sp_compress_level : option Z;
  sp_method : option Z
}.

Definition no_params : save_params :=
  {| sp_quality := None; sp_optimize := false; sp_progressive := false;
     sp_compress_level := None; sp_method := None |}.

(** Outcome of Pillow's save handler on an open file: the whole encoding,
    or an exception after some bytes were written. *)
Inductive save_outcome : Type :=
  | Encoded (bs : bytes)
  | EncodeError (e : exn) (written : bytes).

(** ** The world: files and the trace of the run *)

(** One constructor per [print] of the two scripts. *)
Inductive msg : Type :=
  (* generate-og-image.py *)
  | MsgCreated (output_path : string)       (* "✓ Created Open Graph image: {output_path}" *)
  | MsgDimensions (w h : Z)                 (* "  Dimensions: {WIDTH}x{HEIGHT}px" *)
  | MsgFileSize (kb : Q)                    (* "  File size: {file_size_kb:.1f}KB" *)
  | MsgWarning                              (* "  ⚠ Warning: File size exceeds recommended 300KB" *)
  | MsgWithinLimits                         (* "  ✓ File size is within recommended limits" *)
  | MsgPillowMissing                        (* "Error: PIL/Pillow is not installed." *)
  | MsgInstallHint                          (* "Install it with: pip3 install Pillow" *)
  | MsgErrorCreating (e : exn)              (* "Error creating Open Graph image: {e}" *)
  (* optimize-images.py *)
  | MsgOptimizing (input_path : string)     (* "Optimizing {input_path}..." *)
  | MsgOriginal (original_size : Z)         (* "  Original: {original_size:,} bytes" *)
  | MsgOptimized (new_size : Z)             (* "  Optimized: {new_size:,} bytes" *)
  | MsgSaved (savings : Z) (percent : Q)    (* "  Saved: {savings:,} bytes ({savings_percent:.1f}%)" *)
  | MsgSkipping (image_path : string)       (* "Skipping {image_path} (not found)" *)
  | MsgBlank                                (* print() *)
  | MsgTotal (total_saved : Z) (kb : Q)     (* "Total space saved: {total_saved:,} bytes (... KB)" *)
  | MsgAllOptimized.                        (* "All images optimized successfully!" *)

Inductive event : Type :=
  | EvPrint (m : msg)                       (* a line on standard output *)
  | EvTraceback (e : exn)                   (* the interpreter's report of an uncaught exception *)
  | EvExists (p : string)                   (* os.path.exists(p) *)
  | EvGetsize (p : string)                  (* os.path.getsize(p) *)
  | EvOpen (p : string)                     (* Image.open(p), pixel data loaded *)
  | EvTruetype (p : string) (size : Z)      (* ImageFont.truetype(p, size) *)
  | EvSave (p : string) (f : format) (ps : save_params) (img : image).
                                            (* img.save(p, format=f, **ps) *)

Record world : Type := World {
  fs : gmap string bytes;                   (* regular files by path *)
  trace : list event                        (* oldest event first *)
}.

(** ** The monad of a run: state and exceptions *)

Definition M (A : Type) : Type := world -> result A * world.

Global Instance M_ret : MRet M := fun A a w => (Ok a, w).

Global Instance M_bind : MBind M := fun A B f m w =>
  match m w with
  | (Ok a, w') => f a w'
  | (Raise e, w') => (Raise e, w')
  end.

Definition raise {A} (e : exn) : M A := fun w => (Raise e, w).

Definition emit (ev : event) : M unit := fun w =>
  (Ok tt, {| fs := fs w; trace := trace w ++ [ev] |}).

Definition print (m : msg) : M unit := emit (EvPrint m).

(** [try: body  except Exception: handler] *)
Definition try_except {A} (body : M A) (handler : exn -> M A) : M A := fun w =>
  match body w with
  | (Ok a, w') => (Ok a, w')
  | (Raise e, w') => handler e w'
  end.

(** ** [os.path] and Pillow's file operations *)

Definition os_path_exists (p : string) : M bool := fun w =>
  (Ok (bool_decide (is_Some (fs w !! p))),
   {| fs := fs w; trace := trace w ++ [EvExists p] |}).

Definition os_path_getsize (p : string) : M Z := fun w =>
  let w' := {| fs := fs w; trace := trace w ++ [EvGetsize p] |} in
  match fs w !! p with
  | Some bs => (Ok (Z.of_nat (length bs)), w')
  | None => (Raise FileNotFoundError, w')
  end.

(** [Image.open(p)] together with the load of the pixel data that the
    first [getdata()] triggers.  [decode] is Pillow's decoder. *)
Definition Image_open (decode : bytes -> option image) (p : string) : M image :=
  fun w =>
  let w' := {| fs := fs w; trace := trace w ++ [EvOpen p] |} in
  match fs w !! p with
  | Some bs =>
      match decode bs with
      | Some img => (Ok img, w')
      | None => (Raise UnidentifiedImageError, w')
      end
  | None => (Raise FileNotFoundError, w')
  end.

(** [img.save(p, format=f, **ps)].  Pillow opens [p] for writing (which can
    fail: [can_write]), runs the encoder, and on an encoder error closes the
    file and removes it if the call had created it. *)
Definition Image_save
    (can_write : string -> bool)
    (encode : format -> save_params -> image -> save_outcome)
    (img : image) (p : string) (f : format) (ps : save_params) : M unit :=
  fun w =>
  let tr := trace w ++ [EvSave p f ps img] in
  if can_write p then
    match encode f ps img with
    | Encoded bs => (Ok tt, {| fs := <[p := bs]> (fs w); trace := tr |})
    | EncodeError e written =>
        (Raise e,
         {| fs := match fs w !! p with
                  | Some _ => <[p := written]> (fs w)
                  | None => fs w
                  end;
            trace := tr |})
    end
  else (Raise OSError, {| fs := fs w; trace := tr |}).

(** True division of two ints, [a / b], as an exact rational. *)
Definition true_div (a b : Z) : M Q :=
  if bool_decide (b = 0) then raise ZeroDivisionError
  else mret (inject_Z a / inject_Z b)%Q.

(** ** Flattening onto a background: the Pillow operations [optimize_jpg] uses *)

(** Pillow's rounding division by 255 and its 8-bit blend
    ([DIV255] and [BLEND8] of [ImagingUtils.h]). *)
Definition DIV255 (a : Z) : Z :=
  let tmp := a + 128 in
  Z.shiftr (Z.shiftr tmp 8 + tmp) 8.

Definition BLEND8 (mask in1 in2 : Z) : Z :=
  DIV255 (in1 * (255 - mask) + in2 * mask).

(** [img.convert('RGBA')] of a ["P"] image: each index is replaced by its
    palette entry (with the transparency Pillow attaches to the palette);
    an index past the palette is opaque black. *)
Definition convert_RGBA (img : image) : image :=
  {| im_mode := M_RGBA; im_width := im_width img; im_height := im_height img;
     im_px := fun x y =>
       default (Pixel 0 0 0 255)
               (im_palette img !! Z.to_nat (band0 (im_px img x y)));
     im_palette := []; im_info := im_info img |}.

(** [img.split()[-1]] of an ["RGBA"] or ["LA"] image: the alpha band. *)
Definition alpha_band (img : image) : Z -> Z -> Z :=
  fun x y => band3 (im_px img x y).

(** [dst.paste(src, mask=mask)] for an ["RGB"] destination and an ["RGBA"]
    or ["LA"] source: the box is the source's extent at the origin, the
    four slots are copied ([mask=None]) or blended through the mask. *)
Definition paste (dst src : image) (mask : option (Z -> Z -> Z)) : image :=
  {| im_mode := im_mode dst; im_width := im_width dst; im_height := im_height dst;
     im_px := fun x y =>
       if in_bounds (im_width dst) (im_height dst) x y
          && in_bounds (im_width src) (im_height src) x y then
         let o := im_px dst x y in
         let i := im_px src x y in
         match mask with
         | None => i
         | Some m =>
             let a := m x y in
             Pixel (BLEND8 a (band0 o) (band0 i)) (BLEND8 a (band1 o) (band1 i))
                   (BLEND8 a (band2 o) (band2 i)) (BLEND8 a (band3 o) (band3 i))
         end
       else im_px dst x y;
     im_palette := im_palette dst; im_info := im_info dst |}.

Definition white : pixel := Pixel 255 255 255 255.

(** * optimize-images.py *)

Module Optimizer.

Section WithPillow.

(** Pillow's decoder, its encoders, and whether a path can be opened for
    writing. *)
Variable decode : bytes -> option image.
Variable encode : format -> save_params -> image -> save_outcome.
Variable can_write : string -> bool.

(** [optimize_png(input_path, output_path=None, quality=85)] *)
Definition optimize_png (input_path : string) (output_path : option string)
    (quality : Z) : M Z :=
  let output_path := default input_path output_path in
  print (MsgOptimizing input_path);;
  original_size ← os_path_getsize input_path;
  img ← Image_open decode input_path;
  let image_without_exif := without_exif img in
  Image_save can_write encode image_without_exif output_path PNG
    {| sp_quality := None; sp_optimize := true; sp_progressive := false;
       sp_compress_level := Some 9; sp_method := None |};;
  new_size ← os_path_getsize output_path;
  let savings := original_size - new_size in
  ratio ← true_div savings original_size;
  let savings_percent := (ratio * 100)%Q in
  print (MsgOriginal original_size);;
  print (MsgOptimized new_size);;
  print (MsgSaved savings savings_percent);;
  mret new_size.

(** Lines 75-80 of [optimize_jpg]:
<<
  if img.mode in ('RGBA', 'LA', 'P'):
      rgb_img = Image.new('RGB', img.size, (255, 255, 255))
      if img.mode == 'P':
          img = img.convert('RGBA')
      rgb_img.paste(img, mask=img.split()[-1] if img.mode in ('RGBA', 'LA') else None)
      img = rgb_img
>> *)
Definition jpg_flatten (img : image) : image :=
  if decide (im_mode img ∈ [M_RGBA; M_LA; M_P]) then
    let rgb_img := Image_new M_RGB (im_size img) white in
    let img := if decide (im_mode img = M_P) then convert_RGBA img else img in
    let mask :=
      if decide (im_mode img ∈ [M_RGBA; M_LA]) then Some (alpha_band img)
      else None in
    paste rgb_img img mask
  else img.

(** [optimize_jpg(input_path, output_path=None, quality=85)] *)
Definition optimize_jpg (input_path : string) (output_path : option string)
    (quality : Z) : M Z :=
  let output_path := default input_path output_path in
  print (MsgOptimizing input_path);;
  original_size ← os_path_getsize input_path;
  img ← Image_open decode input_path;
  let img := jpg_flatten img in
  let image_without_exif := without_exif img in
  Image_save can_write encode image_without_exif output_path JPEG
    {| sp_quality := Some quality; sp_optimize := true; sp_progressive := true;
       sp_compress_level := None; sp_method := None |};;
  new_size ← os_path_getsize output_path;
  let savings := original_size - new_size in
  ratio ← true_div savings original_size;
  let savings_percent := (ratio * 100)%Q in
  print (MsgOriginal original_size);;
  print (MsgOptimized new_size);;
  print (MsgSaved savings savings_percent);;
  mret new_size.

(** [optimize_webp(input_path, output_path=None, quality=85)] *)
Definition optimize_webp (input_path : string) (output_path : option string)
    (quality : Z) : M Z :=
  let output_path := default input_path output_path in
  print (MsgOptimizing input_path);;
  original_size ← os_path_getsize input_path;
  img ← Image_open decode input_path;
  let image_without_exif := without_exif img in
  Image_save can_write encode image_without_exif output_path WEBP
    {| sp_quality := Some quality; sp_optimize := false; sp_progressive := false;
       sp_compress_level := None; sp_method := Some 6 |};;
  new_size ← os_path_getsize output_path;
  let savings := original_size - new_size in
  ratio ← true_div savings original_size;
  let savings_percent := (ratio * 100)%Q in
  print (MsgOriginal original_size);;
  print (MsgOptimized new_size);;
  print (MsgSaved savings savings_percent);;
  mret new_size.

(** The worklist of [main]. *)
Definition images_to_optimize : list (string * string) :=
  [ ("src/assets/covers/fracture-engine.png", "png");
    ("public/covers/fracture-engine.png", "png");
    ("src/assets/covers/fracture-engine.webp", "webp");
    ("public/covers/fracture-engine.webp", "webp");
    ("public/cache-mcclure-og.jpg", "jpg") ].

(** The local variables of [main] that live across iterations:
    [total_saved], and [new_size], which is unbound until the first
    branch of the [if]/[elif] chain assigns it. *)
Definition locals : Type := Z * option Z.

(** The default of the [quality] parameter, used by the call
    [optimize_png(image_path)]. *)
Definition default_quality : Z := 85.

(** One iteration of the [for] loop of [main]. *)
Definition loop_body (entry : string * string) (st : locals) : M locals :=
  let '(image_path, format_type) := entry in
  let '(total_saved, new_size) := st in
  found ← os_path_exists image_path;
  if negb found then
    print (MsgSkipping image_path);;
    mret st                                                  (* continue *)
  else
    original_size ← os_path_getsize image_path;
    new_size ←
      (if decide (format_type = "png") then
         n ← optimize_png image_path None default_quality; mret (Some n)
       else if decide (format_type = "jpg") then
         n ← optimize_jpg image_path None 90; mret (Some n)
       else if decide (format_type = "webp") then
         n ← optimize_webp image_path None 90; mret (Some n)
       else mret new_size);
    match new_size with
    | None => raise UnboundLocalError
    | Some n =>
        let total_saved := total_saved + (original_size - n) in
        print MsgBlank;;
        mret (total_saved, Some n)
    end.

Fixpoint for_each (l : list (string * string)) (st : locals) : M locals :=
  match l with
  | [] => mret st
  | entry :: l' => st' ← loop_body entry st; for_each l' st'
  end.

Definition main : M unit :=
  st ← for_each images_to_optimize (0, None);
  let total_saved := st.1 in
  print (MsgTotal total_saved (inject_Z total_saved / 1024)%Q);;
  print MsgAllOptimized.

(** The file run as a script: the import at line 6, then
    [if __name__ == '__main__': main()].  An exception nobody catches makes
    the interpreter print a traceback and exit with status 1. *)
Definition script (pil_installed : bool) (w : world) : world * Z :=
  let r := (if pil_installed then main else raise ModuleNotFoundError) w in
  match r with
  | (Ok _, w') => (w', 0)
  | (Raise e, w') =>
      ({| fs := fs w'; trace := trace w' ++ [EvTraceback e] |}, 1)
  end.

End WithPillow.

End Optimizer.

(** * generate-og-image.py *)

(** ** [os.path] on POSIX path strings *)

Definition is_sep (c : ascii) : bool := bool_decide (c = "/"%char).

(** [p[:p.rfind('/') + 1]] *)
Fixpoint upto_last_sep (cs : list ascii) : list ascii :=
  match cs with
  | [] => []
  | c :: cs' =>
      match upto_last_sep cs' with
      | [] => if is_sep c then [c] else []
      | h => c :: h
      end
  end.

(** [head.rstrip('/')] *)
Fixpoint rstrip_sep (cs : list ascii) : list ascii :=
  match cs with
  | [] => []
  | c :: cs' =>
      match rstrip_sep cs' with
      | [] => if is_sep c then [] else [c]
      | t => c :: t
      end
  end.

(** [posixpath.dirname]:
<<
    i = p.rfind(sep) + 1
    head = p[:i]
    if head and head != sep*len(head):
        head = head.rstrip(sep)
    return head
>> *)
Definition os_path_dirname (p : string) : string :=
  let head := upto_last_sep (list_ascii_of_string p) in
  if forallb is_sep head then string_of_list_ascii head
  else string_of_list_ascii (rstrip_sep head).

Definition startswith_sep (s : string) : bool :=
  match s with
  | String c _ => is_sep c
  | EmptyString => false
  end.

Fixpoint endswith_sep (s : string) : bool :=
  match s with
  | EmptyString => false
  | String c EmptyString => is_sep c
  | String _ s' => endswith_sep s'
  end.

(** One round of the loop of [posixpath.join]:
<<
    if b.startswith(sep):
        path = b
    elif not path or path.endswith(sep):
        path += b
    else:
        path += sep + b
>> *)
Definition join_step (path b : string) : string :=
  if startswith_sep b then b
  else if bool_decide (path = "") || endswith_sep path then (path ++ b)%string
  else (path ++ "/" ++ b)%string.

Definition os_path_join (a : string) (p : list string) : string :=
  fold_left join_step p a.

Module Generator.

(** Image dimensions (Open Graph standard) *)
Definition WIDTH : Z := 1200.
Definition HEIGHT : Z := 630.

(** Colour scheme *)
Definition BACKGROUND_COLOR : Z * Z * Z := (15, 23, 42).
Definition PRIMARY_COLOR : Z * Z * Z := (148, 163, 184).
Definition ACCENT_COLOR : Z * Z * Z := (99, 102, 241).
Definition TEXT_COLOR : Z * Z * Z := (241, 245, 249).

(** The stored pixel of an RGB colour tuple. *)
Definition ink (c : Z * Z * Z) : pixel :=
  let '(r, g, b) := c in Pixel r g b 255.

(** [draw.rectangle([x0, y0, x1, y1], fill=fill)]: both corners included,
    clipped to the image. *)
Definition rectangle (xy : Z * Z * Z * Z) (fill : Z * Z * Z) (img : image) : image :=
  let '(x0, y0, x1, y1) := xy in
  {| im_mode := im_mode img; im_width := im_width img; im_height := im_height img;
     im_px := fun x y =>
       if in_bounds (im_width img) (im_height img) x y
          && bool_decide (x0 <= x <= x1) && bool_decide (y0 <= y <= y1)
       then ink fill else im_px img x y;
     im_palette := im_palette img; im_info := im_info img |}.

Definition font_paths : list string :=
  [ "/System/Library/Fonts/Supplemental/Arial Bold.ttf";
    "/usr/share/fonts/truetype/dejavu/DejaVuSans-Bold.ttf";
    "C:\Windows\Fonts\arialbd.ttf" ].

Definition title : string := "CACHE McCLURE".
Definition subtitle : string := "Science Fiction Author".

(** Lines 54-80: the two accent lines and the four corner accents. *)
Definition decorate (img : image) : image :=
  let line_y := HEIGHT / 2 - 120 in
  let img := rectangle (100, line_y, 1100, line_y + 4) ACCENT_COLOR img in
  let line_y := HEIGHT / 2 + 120 in
  let img := rectangle (100, line_y, 1100, line_y + 4) ACCENT_COLOR img in
  let corner_size := 40 in
  let corner_thickness := 4 in
  (* top-left *)
  let img := rectangle (80, 80, 80 + corner_size, 80 + corner_thickness) ACCENT_COLOR img in
  let img := rectangle (80, 80, 80 + corner_thickness, 80 + corner_size) ACCENT_COLOR img in
  (* top-right *)
  let img := rectangle (WIDTH - 80 - corner_size, 80, WIDTH - 80, 80 + corner_thickness) ACCENT_COLOR img in
  let img := rectangle (WIDTH - 80 - corner_thickness, 80, WIDTH - 80, 80 + corner_size) ACCENT_COLOR img in
  (* bottom-left *)
  let img := rectangle (80, HEIGHT - 80 - corner_thickness, 80 + corner_size, HEIGHT - 80) ACCENT_COLOR img in
  let img := rectangle (80, HEIGHT - 80 - corner_size, 80 + corner_thickness, HEIGHT - 80) ACCENT_COLOR img in
  (* bottom-right *)
  let img := rectangle (WIDTH - 80 - corner_size, HEIGHT - 80 - corner_thickness, WIDTH - 80, HEIGHT - 80) ACCENT_COLOR img in
  let img := rectangle (WIDTH - 80 - corner_thickness, HEIGHT - 80 - corner_size, WIDTH - 80, HEIGHT - 80) ACCENT_COLOR img in
  img.

(** The keyword arguments of the one [img.save] call:
    [quality=90, optimize=True]. *)
Definition og_save_params : save_params :=
  {| sp_quality := Some 90; sp_optimize := true; sp_progressive := false;
     sp_compress_level := None; sp_method := None |}.

(** Lines 102-106, with [script_file] for [__file__]. *)
Definition output_path (script_file : string) : string :=
  os_path_join (os_path_dirname (os_path_dirname script_file))
               ["public"; "cache-mcclure-og.jpg"].

Section WithPillow.

(** Pillow's fonts: loading a font file at a size, the built-in default,
    measuring and rendering a string; then the encoder and the check that
    a path can be opened for writing; last the script's [__file__]. *)
Variable font : Type.
Variable truetype : bytes -> Z -> result font.
Variable load_default : font.
Variable textbbox : font -> string -> result (Z * Z * Z * Z).
Variable render_text :
  font -> string -> Z * Z -> Z * Z * Z -> image -> result (Z -> Z -> pixel).
Variable encode : format -> save_params -> image -> save_outcome.
Variable can_write : string -> bool.
Variable script_file : string.

Definition lift {A} (r : result A) : M A := fun w => (r, w).

(** [ImageFont.truetype(p, size)] reads the font file. *)
Definition ImageFont_truetype (p : string) (size : Z) : M font := fun w =>
  let w' := {| fs := fs w; trace := trace w ++ [EvTruetype p size] |} in
  match fs w !! p with
  | Some bs => (truetype bs size, w')
  | None => (Raise OSError, w')
  end.

(** A [font=] argument that is [None] makes Pillow use its default font. *)
Definition font_or_default (f : option font) : font := default load_default f.

(** [draw.textbbox((0, 0), text, font=f)] *)
Definition draw_textbbox (text : string) (f : option font) : M (Z * Z * Z * Z) :=
  lift (textbbox (font_or_default f) text).

(** [draw.text(xy, text, font=f, fill=fill)] *)
Definition draw_text (xy : Z * Z) (text : string) (f : option font)
    (fill : Z * Z * Z) (img : image) : M image :=
  px ← lift (render_text (font_or_default f) text xy fill img);
  mret {| im_mode := im_mode img; im_width := im_width img;
          im_height := im_height img; im_px := px;
          im_palette := im_palette img; im_info := im_info img |}.

(** The [for font_path in font_paths] loop; its state is the pair
    [(title_font, subtitle_font)], both [None] at the start. *)
Fixpoint find_font (paths : list string) (st : option font * option font)
    : M (option font * option font) :=
  match paths with
  | [] => mret st
  | font_path :: rest =>
      found ← os_path_exists font_path;
      if (found : bool) then
        title_font ← ImageFont_truetype font_path 80;
        subtitle_font ← ImageFont_truetype font_path 40;
        mret (Some title_font, Some subtitle_font)            (* break *)
      else find_font rest st
  end.

(** Lines 27-52: the font selection with its two fallbacks. *)
Definition select_fonts : M (option font * option font) :=
  try_except
    (st ← find_font font_paths (None, None);
     match st.1 with
     | None => mret (Some load_default, Some load_default)
     | Some _ => mret st
     end)
    (fun _ => mret (Some load_default, Some load_default)).

(** Lines 86-99: measuring, centring and drawing the two strings. *)
Definition draw_strings (fonts : option font * option font) (img : image) : M image :=
  let '(title_font, subtitle_font) := fonts in
  title_bbox ← draw_textbbox title title_font;
  let '(l, _, r, _) := title_bbox in
  let title_width := r - l in
  let title_x := (WIDTH - title_width) / 2 in
  let title_y := HEIGHT / 2 - 50 in
  subtitle_bbox ← draw_textbbox subtitle subtitle_font;
  let '(l, _, r, _) := subtitle_bbox in
  let subtitle_width := r - l in
  let subtitle_x := (WIDTH - subtitle_width) / 2 in
  let subtitle_y := HEIGHT / 2 + 20 in
  img ← draw_text (title_x, title_y) title title_font TEXT_COLOR img;
  draw_text (subtitle_x, subtitle_y) subtitle subtitle_font PRIMARY_COLOR img.

(** Lines 111-122: the report after the file is written. *)
Definition report (output_path : string) : M unit :=
  print (MsgCreated output_path);;
  print (MsgDimensions WIDTH HEIGHT);;
  file_size ← os_path_getsize output_path;
  let file_size_kb := (inject_Z file_size / 1024)%Q in
  print (MsgFileSize file_size_kb);;
  if Qlt_le_dec 300 file_size_kb then print MsgWarning
  else print MsgWithinLimits.

Definition create_og_image : M unit :=
  let img := Image_new M_RGB (WIDTH, HEIGHT) (ink BACKGROUND_COLOR) in
  fonts ← select_fonts;
  let img := decorate img in
  img ← draw_strings fonts img;
  let output_path := output_path script_file in
  Image_save can_write encode img output_path JPEG og_save_params;;
  report output_path.

(** The file run as a script.  The import of line 7 is a statement of the
    module, executed before the [try] of lines 125-133 is entered. *)
Definition script (pil_installed : bool) (w : world) : world * Z :=
  if negb pil_installed then
    ({| fs := fs w; trace := trace w ++ [EvTraceback ModuleNotFoundError] |}, 1)
  else
    match create_og_image w with
    | (Ok _, w') => (w', 0)
    | (Raise e, w') =>
        if is_ImportError e then
          ({| fs := fs w';
              trace := trace w' ++ [EvPrint MsgPillowMissing; EvPrint MsgInstallHint] |},
           1)                                                  (* exit(1) *)
        else
          ({| fs := fs w';
              trace := trace w' ++ [EvPrint (MsgErrorCreating e)] |},
           1)                                                  (* exit(1) *)
    end.

End WithPillow.

End Generator.

(** * Vocabulary of the statements *)

(** ** Running a script body *)

(** The world after one more event. *)
Definition logged (evs : list event) (w : world) : world :=
  {| fs := fs w; trace := trace w ++ evs |}.

Definition file_size (files : gmap string bytes) (p : string) : Z :=
  match files !! p with
  | Some bs => Z.of_nat (length bs)
  | None => 0
  end.

(** ** The optimizer *)

Definition png_params : save_params :=
  {| sp_quality := None; sp_optimize := true; sp_progressive := false;
     sp_compress_level := Some 9; sp_method := None |}.

Definition jpeg_params (quality : Z) : save_params :=
  {| sp_quality := Some quality; sp_optimize := true; sp_progressive := true;
     sp_compress_level := None; sp_method := None |}.

Definition webp_params (quality : Z) : save_params :=
  {| sp_quality := Some quality; sp_optimize := false; sp_progressive := false;
     sp_compress_level := None; sp_method := Some 6 |}.

(** What the spec says a processed file leaves in the trace: the file is
    measured, opened, saved and measured again, and the report gives the
    two sizes, their difference and the difference as a percentage of the
    original size. *)
Definition run_events (p : string) (f : format) (ps : save_params) (out : image)
    (original_size new_size : Z) : list event :=
  [ EvPrint (MsgOptimizing p); EvGetsize p; EvOpen p; EvSave p f ps out; EvGetsize p;
    EvPrint (MsgOriginal original_size);
    EvPrint (MsgOptimized new_size);
    EvPrint (MsgSaved (original_size - new_size)
               (inject_Z (original_size - new_size) / inject_Z original_size * 100)%Q) ].

(** The target format, the encoder settings and the preparation of the
    pixels that [main] selects for a format tag. *)
Definition handler_of (format_type : string)
    : option (format * save_params * (image -> image)) :=
  if decide (format_type = "png") then Some (PNG, png_params, fun img => img)
  else if decide (format_type = "jpg") then
    Some (JPEG, jpeg_params 90, Optimizer.jpg_flatten)
  else if decide (format_type = "webp") then
    Some (WEBP, webp_params 90, fun img => img)
  else None.

Definition known_format (entry : string * string) : Prop :=
  is_Some (handler_of entry.2).

(** The trace of one worklist entry in a run that reaches its end, given
    the decoder and the files before and after the whole run: a missing
    file is looked for and skipped; a present one is looked for, measured,
    processed and followed by a blank line.  (A present file that does not
    decode, or a tag without handler, does not let the run reach its end.) *)
Definition entry_events (decode : bytes -> option image)
    (before after : gmap string bytes) (entry : string * string) : list event :=
  let '(p, format_type) := entry in
  match before !! p with
  | None => [EvExists p; EvPrint (MsgSkipping p)]
  | Some bs =>
      match decode bs, handler_of format_type with
      | Some img, Some (f, ps, prepare) =>
          [EvExists p; EvGetsize p]
            ++ run_events p f ps (without_exif (prepare img))
                 (file_size before p) (file_size after p)
            ++ [EvPrint MsgBlank]
      | _, _ => []
      end
  end.

(** Every present file of the list decodes. *)
Definition decodable (decode : bytes -> option image)
    (files : gmap string bytes) (entry : string * string) : Prop :=
  forall bs, files !! entry.1 = Some bs -> is_Some (decode bs).

(** The savings of one entry as measured on the files themselves; a
    missing file saves nothing. *)
Definition entry_savings (before after : gmap string bytes)
    (entry : string * string) : Z :=
  match before !! entry.1 with
  | Some _ => file_size before entry.1 - file_size after entry.1
  | None => 0
  end.

Definition sum_Z (l : list Z) : Z := foldr Z.add 0 l.

(** The savings that the trace reports, in order. *)
Definition reported_savings (tr : list event) : list Z :=
  omap (fun ev => match ev with
                  | EvPrint (MsgSaved s _) => Some s
                  | _ => None
                  end) tr.

(** Events a worklist run may produce when the files are [files]: no file
    outside [files] is opened or saved, and the closing lines and the
    interpreter's traceback are not among them. *)
Definition loop_event (files : gmap string bytes) (ev : event) : Prop :=
  match ev with
  | EvOpen q | EvSave q _ _ _ => is_Some (files !! q)
  | EvPrint (MsgTotal _ _) | EvPrint MsgAllOptimized => False
  | EvPrint _ | EvExists _ | EvGetsize _ => True
  | EvTraceback _ | EvTruetype _ _ => False
  end.

(** [p] is opened or written by the event. *)
Definition opens_or_writes (p : string) (ev : event) : Prop :=
  match ev with
  | EvOpen q | EvSave q _ _ _ => q = p
  | _ => False
  end.

(** The event is a call of [img.save]. *)
Definition is_save (ev : event) : Prop :=
  match ev with
  | EvSave _ _ _ _ => True
  | _ => False
  end.

(** The image whose alpha band [optimize_jpg] composites through: the
    source itself, or its RGBA conversion when the source is palettised. *)
Definition alpha_source (img : image) : image :=
  if decide (im_mode img = M_P) then convert_RGBA img else img.

(** ** Sample inputs *)

(** A two-pixel RGBA image, transparent on the left and opaque on the
    right, with an EXIF entry; and a one-pixel RGB image. *)
Definition sample_rgba : image :=
  {| im_mode := M_RGBA; im_width := 2; im_height := 1;
     im_px := fun x _ =>
       if bool_decide (x = 0) then Pixel 10 20 30 0 else Pixel 200 100 50 255;
     im_palette := []; im_info := {[ "exif" := [Byte.x2a] ]} |}.

Definition sample_rgb : image :=
  {| im_mode := M_RGB; im_width := 1; im_height := 1;
     im_px := fun _ _ => Pixel 1 2 3 255;
     im_palette := []; im_info := {[ "exif" := [Byte.x2a] ]} |}.

(** A decoder that tells the two by the first byte of the file. *)
Definition sample_decode (bs : bytes) : option image :=
  match bs with
  | Byte.x01 :: _ => Some sample_rgba
  | Byte.x02 :: _ => Some sample_rgb
  | _ => None
  end.

(** An encoder that writes one byte and, as Pillow does, refuses to write
    an image with alpha or a palette as JPEG. *)
Definition sample_encode (f : format) (ps : save_params) (img : image)
    : save_outcome :=
  match f, im_mode img with
  | JPEG, (M_RGBA | M_LA | M_P | M_PA) => EncodeError OSError []
  | _, _ => Encoded [Byte.x02]
  end.

Definition sample_can_write (p : string) : bool := true.

(** Two of the five files are present: a PNG of two bytes and, under the
    name of the Open Graph JPEG, three bytes that decode to the RGBA
    image. *)
Definition sample_world : world :=
  {| fs := {[ "public/covers/fracture-engine.png" := [Byte.x02; Byte.x00];
              "public/cache-mcclure-og.jpg" := [Byte.x01; Byte.x00; Byte.x00] ]};
     trace := [] |}.

(** The same, with a WebP file that does not decode. *)
Definition sample_world_broken : world :=
  {| fs := <[ "public/covers/fracture-engine.webp" := [Byte.x00] ]> (fs sample_world);
     trace := [] |}.

Section ReencodeShape.

Variable decode : bytes -> option image.
Variable encode : format -> save_params -> image -> save_outcome.
Variable can_write : string -> bool.

(** The common shape of [optimize_png], [optimize_jpg] and
    [optimize_webp] when they overwrite their input: they differ in the
    preparation of the pixels, the format and the encoder settings. *)
Definition reencode (prepare : image -> image) (f : format) (ps : save_params)
    (p : string) : M Z :=
  print (MsgOptimizing p);;
  original_size ← os_path_getsize p;
  img ← Image_open decode p;
  Image_save can_write encode (without_exif (prepare img)) p f ps;;
  new_size ← os_path_getsize p;
  ratio ← true_div (original_size - new_size) original_size;
  print (MsgOriginal original_size);;
  print (MsgOptimized new_size);;
  print (MsgSaved (original_size - new_size) (ratio * 100)%Q);;
  mret new_size.

End ReencodeShape.

(** ** The generator *)

(** The canvas that reaches [img.save] for given fonts: the background,
    the decorations and the two strings.  (Measuring and rendering do not
    touch the world, so any world serves to run them.) *)
Definition canvas_of {font : Type} (load_default : font)
    (textbbox : font -> string -> result (Z * Z * Z * Z))
    (render_text :
       font -> string -> Z * Z -> Z * Z * Z -> image -> result (Z -> Z -> pixel))
    (fonts : option font * option font) : result image :=
  (Generator.draw_strings font load_default textbbox render_text fonts
     (Generator.decorate
        (Image_new M_RGB (Generator.WIDTH, Generator.HEIGHT)
                   (Generator.ink Generator.BACKGROUND_COLOR)))
     {| fs := ∅; trace := [] |}).1.

(** The path names no file. *)
Definition missing (w : world) (p : string) : Prop := fs w !! p = None.

(** What the spec says the generator prints once the file is written. *)
Definition report_events (output_path : string) (size : Z) : list event :=
  [ EvPrint (MsgCreated output_path);
    EvPrint (MsgDimensions 1200 630);
    EvGetsize output_path;
    EvPrint (MsgFileSize (inject_Z size / 1024)%Q);
    EvPrint (if decide (300 * 1024 < size) then MsgWarning else MsgWithinLimits) ].

(** Sample fonts: a font is the size it was loaded at, the built-in one
    has size 0; a string is measured as half its font size per character
    and rendered as one pixel at its origin. *)
Definition sample_truetype (bs : bytes) (size : Z) : result nat :=
  match bs with
  | [] => Raise OSError
  | _ => Ok (Z.to_nat size)
  end.

Definition sample_textbbox (f : nat) (text : string) : result (Z * Z * Z * Z) :=
  Ok (0, 0, Z.of_nat (String.length text) * Z.of_nat f / 2, Z.of_nat f).

Definition sample_render_text (f : nat) (text : string) (xy : Z * Z)
    (fill : Z * Z * Z) (img : image) : result (Z -> Z -> pixel) :=
  Ok (fun x y =>
        if bool_decide (x = xy.1) && bool_decide (y = xy.2)
        then Generator.ink fill else im_px img x y).

Definition sample_og_encode (f : format) (ps : save_params) (img : image)
    : save_outcome :=
  Encoded [Byte.xff; Byte.xd8].

Definition sample_script_file : string := "/site/scripts/generate-og-image.py".

(** A machine with the Linux font only. *)
Definition sample_machine : world :=
  {| fs := {[ "/usr/share/fonts/truetype/dejavu/DejaVuSans-Bold.ttf" := [Byte.x00] ]};
     trace := [] |}.

(** A machine on which no path can be opened for writing. *)
Definition sample_read_only (p : string) : bool := false.

(** The canvas drawn with the sample fonts at sizes 80 and 40. *)
Definition sample_canvas : image :=
  match canvas_of 0%nat sample_textbbox sample_render_text
          (Some 80%nat, Some 40%nat) with
  | Ok img => img
  | Raise _ => Image_new M_RGB (0, 0) black
  end.

(** What the font selection leaves in the trace on the sample machine. *)
Definition sample_tested : list event :=
  [ EvExists "/System/Library/Fonts/Supplemental/Arial Bold.ttf";
    EvExists "/usr/share/fonts/truetype/dejavu/DejaVuSans-Bold.ttf";
    EvTruetype "/usr/share/fonts/truetype/dejavu/DejaVuSans-Bold.ttf" 80;
    EvTruetype "/usr/share/fonts/truetype/dejavu/DejaVuSans-Bold.ttf" 40 ].

(** ** Vocabulary of the further properties *)

(** The paths the trace saves to, in order. *)
Definition saved_paths (tr : list event) : list string :=
  omap (fun ev => match ev with
                  | EvSave p _ _ _ => Some p
                  | _ => None
                  end) tr.

(** What a skipped worklist entry leaves in the trace. *)
Definition skip_events (entry : string * string) : list event :=
  [EvExists entry.1; EvPrint (MsgSkipping entry.1)].

(** What a run of one of the three functions leaves in the trace when it
    reads [p] and writes [o]. *)
Definition copy_events (p o : string) (f : format) (ps : save_params)
    (out : image) (original_size new_size : Z) : list event :=
  [ EvPrint (MsgOptimizing p); EvGetsize p; EvOpen p; EvSave o f ps out; EvGetsize o;
    EvPrint (MsgOriginal original_size);
    EvPrint (MsgOptimized new_size);
    EvPrint (MsgSaved (original_size - new_size)
               (inject_Z (original_size - new_size) / inject_Z original_size * 100)%Q) ].

(** What the three functions leave in the trace up to a failed open. *)
Definition open_events (p : string) : list event :=
  [EvPrint (MsgOptimizing p); EvGetsize p; EvOpen p].

Section ReencodeToShape.

Variable decode : bytes -> option image.
Variable encode : format -> save_params -> image -> save_outcome.
Variable can_write : string -> bool.

(** The common shape of the three functions for any output path. *)
Definition reencode_to (prepare : image -> image) (f : format) (ps : save_params)
    (p o : string) : M Z :=
  print (MsgOptimizing p);;
  original_size ← os_path_getsize p;
  img ← Image_open decode p;
  Image_save can_write encode (without_exif (prepare img)) o f ps;;
  new_size ← os_path_getsize o;
  ratio ← true_div (original_size - new_size) original_size;
  print (MsgOriginal original_size);;
  print (MsgOptimized new_size);;
  print (MsgSaved (original_size - new_size) (ratio * 100)%Q);;
  mret new_size.

End ReencodeToShape.

(** Two palettised one-pixel images with the same index and different
    palettes, and a decoder for them. *)
Definition sample_p_red : image :=
  {| im_mode := M_P; im_width := 1; im_height := 1;
     im_px := fun _ _ => Pixel 0 0 0 0;
     im_palette := [Pixel 255 0 0 255]; im_info := ∅ |}.

Definition sample_p_blue : image :=
  {| im_mode := M_P; im_width := 1; im_height := 1;
     im_px := fun _ _ => Pixel 0 0 0 0;
     im_palette := [Pixel 0 0 255 255]; im_info := {[ "exif" := [Byte.x2a] ]} |}.

Definition sample_decode_p (bs : bytes) : option image :=
  match bs with
  | Byte.x03 :: _ => Some sample_p_red
  | Byte.x04 :: _ => Some sample_p_blue
  | _ => None
  end.

(** An encoder that writes the bands of the first pixel. *)
Definition sample_encode_raw (f : format) (ps : save_params) (img : image)
    : save_outcome :=
  Encoded ((fun v => default Byte.x00 (Byte.of_N (Z.to_N v)))
             <$> bands (im_mode img) (im_px img 0 0)).

(** Two worlds whose PNG differs in palette and metadata only. *)
Definition sample_world_red : world :=
  {| fs := {[ "public/covers/fracture-engine.png" := [Byte.x03] ]}; trace := [] |}.

Definition sample_world_blue : world :=
  {| fs := {[ "public/covers/fracture-engine.png" := [Byte.x04] ]}; trace := [] |}.

(** The red palettised image under the name of the Open Graph JPEG. *)
Definition sample_world_palette : world :=
  {| fs := {[ "public/cache-mcclure-og.jpg" := [Byte.x03] ]}; trace := [] |}.

(** The ten boxes of the decoration as [(x0, y0, x1, y1)], corners
    included: the two lines, then the two arms of each corner accent. *)
Definition decoration_boxes : list (Z * Z * Z * Z) :=
  [ (100, 195, 1100, 199); (100, 435, 1100, 439);
    (80, 80, 120, 84); (80, 80, 84, 120);
    (1080, 80, 1120, 84); (1116, 80, 1120, 120);
    (80, 546, 120, 550); (80, 510, 84, 550);
    (1080, 546, 1120, 550); (1116, 510, 1120, 550) ].

Definition in_box (x y : Z) (box : Z * Z * Z * Z) : bool :=
  let '(x0, y0, x1, y1) := box in
  bool_decide (x0 <= x <= x1) && bool_decide (y0 <= y <= y1).

(** The string has no path separator. *)
Definition sep_free (s : string) : Prop :=
  Forall (fun c => is_sep c = false) (list_ascii_of_string s).

(** * Facts about the Pillow operations *)

Lemma bands_unbands (m : mode) (p : pixel) :
  bands m (unbands m (bands m p)) = bands m p.
Proof. by destruct m. Qed.

Lemma in_bounds_spec (w h x y : Z) :
  in_bounds w h x y = true <-> 0 <= x < w /\ 0 <= y < h.
Proof.
  unfold in_bounds. rewrite andb_true_iff, !bool_decide_eq_true. tauto.
Qed.

Lemma getdata_length (img : image) :
  length (getdata img) = Z.to_nat (Z.max 0 (im_width img) * Z.max 0 (im_height img)).
Proof. unfold getdata. by rewrite length_fmap, length_seqZ. Qed.

(** Pixel [i] of the sequence is the pixel at column [i mod w], row
    [i / w]. *)
Lemma getdata_lookup (img : image) (i : nat) :
  (i < length (getdata img))%nat ->
  getdata img !! i =
    Some (bands (im_mode img)
            (im_px img (Z.of_nat i mod im_width img) (Z.of_nat i / im_width img))).
Proof.
  rewrite getdata_length. intros Hi. unfold getdata.
  rewrite list_lookup_fmap, lookup_seqZ_lt by lia. simpl. by rewrite Z.add_0_l.
Qed.

Lemma without_exif_mode (img : image) : im_mode (without_exif img) = im_mode img.
Proof. reflexivity. Qed.

Lemma without_exif_size (img : image) : im_size (without_exif img) = im_size img.
Proof. reflexivity. Qed.

Lemma without_exif_info (img : image) : im_info (without_exif img) = ∅.
Proof. reflexivity. Qed.

Lemma without_exif_palette (img : image) : im_palette (without_exif img) = [].
Proof. reflexivity. Qed.

(** The rebuilt image has the pixel data of the source. *)
Lemma without_exif_getdata (img : image) :
  getdata (without_exif img) = getdata img.
Proof.
  apply list_eq. intros i.
  destruct (decide (i < length (getdata img))%nat) as [Hi|Hi].
  - rewrite (getdata_lookup img i Hi).
    assert (Hi' : (i < length (getdata (without_exif img)))%nat).
    { rewrite getdata_length in *. exact Hi. }
    rewrite (getdata_lookup _ i Hi'). f_equal.
    rewrite getdata_length in Hi.
    set (w := im_width img) in *. set (h := im_height img) in *.
    assert (Hwh : 0 < w /\ 0 < h /\ Z.of_nat i < w * h).
    { destruct (decide (0 < w)) as [Hw|Hw]; [destruct (decide (0 < h)) as [Hh|Hh]|].
      - rewrite !Z.max_r in Hi by lia. nia.
      - rewrite (Z.max_l 0 h), Z.mul_0_r in Hi by lia. simpl in Hi. lia.
      - rewrite (Z.max_l 0 w), Z.mul_0_l in Hi by lia. simpl in Hi. lia. }
    destruct Hwh as (Hw & Hh & Hlt).
    assert (Hx : 0 <= Z.of_nat i mod w < w) by (apply Z.mod_pos_bound; lia).
    assert (Hy : 0 <= Z.of_nat i / w < h).
    { split; [apply Z.div_pos; lia|]. apply Z.div_lt_upper_bound; lia. }
    change (im_mode (without_exif img)) with (im_mode img).
    change (im_width (without_exif img)) with w.
    unfold without_exif, putdata. cbn [im_px im_mode im_width im_height Image_new fst snd im_size].
    fold w h.
    replace (in_bounds w h (Z.of_nat i mod w) (Z.of_nat i / w)) with true
      by (symmetry; apply in_bounds_spec; lia).
    replace (Z.of_nat i / w * w + Z.of_nat i mod w) with (Z.of_nat i)
      by (rewrite (Z.div_mod (Z.of_nat i) w) at 1; lia).
    rewrite Nat2Z.id, getdata_lookup by (rewrite getdata_length; exact Hi).
    fold w. apply bands_unbands.
  - apply Nat.nlt_ge in Hi.
    rewrite (lookup_ge_None_2 (getdata img)) by exact Hi.
    apply lookup_ge_None_2. rewrite getdata_length in *. exact Hi.
Qed.

(** The rebuilt image is a function of mode, size and pixel data alone:
    nothing else of the source reaches the encoder. *)
Lemma without_exif_only_pixels (a b : image) :
  im_mode a = im_mode b -> im_size a = im_size b -> getdata a = getdata b ->
  without_exif a = without_exif b.
Proof.
  unfold without_exif. intros Hm Hs Hd. by rewrite Hm, Hs, Hd.
Qed.

(** Inside the image, the rebuilt pixel is the source pixel read through
    its bands. *)
Lemma without_exif_px (img : image) (x y : Z) :
  in_bounds (im_width img) (im_height img) x y = true ->
  im_px (without_exif img) x y
    = unbands (im_mode img) (bands (im_mode img) (im_px img x y)).
Proof.
  intros Hb. pose proof (proj1 (in_bounds_spec _ _ _ _) Hb) as [Hx Hy].
  unfold without_exif, putdata.
  cbn [im_px im_mode im_width im_height Image_new fst snd im_size].
  rewrite Hb.
  set (w := im_width img) in *. set (h := im_height img) in *.
  assert (Hi : (Z.to_nat (y * w + x) < length (getdata img))%nat).
  { rewrite getdata_length. fold w h. rewrite !Z.max_r by lia. nia. }
  rewrite (getdata_lookup img _ Hi), Z2Nat.id by nia. fold w.
  rewrite Z.add_comm, Z_mod_plus_full, Z.mod_small by lia.
  by rewrite Z.div_add, Z.div_small, Z.add_0_l by lia.
Qed.

(** *** Flattening *)

Lemma DIV255_exact (a : Z) : 0 <= a <= 255 -> DIV255 (255 * a) = a.
Proof.
  intros Ha.
  assert (H : forallb (fun a => DIV255 (255 * a) =? a) (seqZ 0 256) = true)
    by (vm_compute; reflexivity).
  rewrite forallb_forall in H. apply Z.eqb_eq, H, list_elem_of_In, elem_of_seqZ. lia.
Qed.

(** A transparent pixel keeps the background, an opaque one takes the
    source. *)
Lemma BLEND8_transparent (o i : Z) : 0 <= o <= 255 -> BLEND8 0 o i = o.
Proof.
  intros Ho. unfold BLEND8.
  replace (o * (255 - 0) + i * 0) with (255 * o) by lia. by apply DIV255_exact.
Qed.

Lemma BLEND8_opaque (o i : Z) : 0 <= i <= 255 -> BLEND8 255 o i = i.
Proof.
  intros Hi. unfold BLEND8.
  replace (o * (255 - 255) + i * 255) with (255 * i) by lia. by apply DIV255_exact.
Qed.

Lemma alpha_source_size (img : image) : im_size (alpha_source img) = im_size img.
Proof. unfold alpha_source. by case_decide. Qed.

(** For the three modes the branch is taken, and the mask is never [None]:
    a palettised source has been converted to RGBA by then. *)
Lemma jpg_flatten_paste (img : image) :
  im_mode img ∈ [M_RGBA; M_LA; M_P] ->
  Optimizer.jpg_flatten img =
    paste (Image_new M_RGB (im_size img) white) (alpha_source img)
          (Some (alpha_band (alpha_source img))).
Proof.
  intros Hm. unfold Optimizer.jpg_flatten, alpha_source.
  rewrite decide_True by done.
  destruct (decide (im_mode img = M_P)) as [HP|HP].
  - rewrite decide_True; [done|]. cbn [convert_RGBA im_mode].
    rewrite elem_of_cons. by left.
  - rewrite decide_True; [done|].
    rewrite !elem_of_cons, elem_of_nil in *. intuition.
Qed.

Lemma jpg_flatten_other (img : image) :
  im_mode img ∉ [M_RGBA; M_LA; M_P] -> Optimizer.jpg_flatten img = img.
Proof. intros Hm. unfold Optimizer.jpg_flatten. by rewrite decide_False. Qed.

Lemma jpg_flatten_size (img : image) :
  im_size (Optimizer.jpg_flatten img) = im_size img.
Proof. unfold Optimizer.jpg_flatten. by case_decide. Qed.

Lemma jpg_flatten_transparent (img : image) (x y : Z) :
  im_mode img ∈ [M_RGBA; M_LA; M_P] ->
  in_bounds (im_width img) (im_height img) x y = true ->
  alpha_band (alpha_source img) x y = 0 ->
  im_px (Optimizer.jpg_flatten img) x y = white.
Proof.
  intros Hm Hb Ha. rewrite jpg_flatten_paste by done.
  pose proof (alpha_source_size img) as Hs. unfold im_size in Hs.
  injection Hs as Hw Hh.
  unfold paste. cbn [im_px im_width im_height Image_new fst snd im_size].
  rewrite Hw, Hh, Hb, Ha. cbn [andb white band0 band1 band2 band3].
  by rewrite !BLEND8_transparent by lia.
Qed.

Lemma jpg_flatten_opaque (img : image) (x y : Z) :
  im_mode img ∈ [M_RGBA; M_LA; M_P] ->
  in_bounds (im_width img) (im_height img) x y = true ->
  alpha_band (alpha_source img) x y = 255 ->
  let i := im_px (alpha_source img) x y in
  0 <= band0 i <= 255 -> 0 <= band1 i <= 255 -> 0 <= band2 i <= 255 ->
  im_px (Optimizer.jpg_flatten img) x y = i.
Proof.
  intros Hm Hb Ha i H0 H1 H2. rewrite jpg_flatten_paste by done.
  pose proof (alpha_source_size img) as Hs. unfold im_size in Hs.
  injection Hs as Hw Hh.
  unfold paste. cbn [im_px im_width im_height Image_new fst snd im_size].
  rewrite Hw, Hh, Hb, Ha. cbn [andb]. fold i.
  unfold alpha_band in Ha. fold i in Ha.
  rewrite !BLEND8_opaque by lia. destruct i. simpl in *. by subst.
Qed.

(** The pixel whose alpha is used, written out: the source pixel, or for
    a palettised source the palette entry of its index. *)
Lemma alpha_source_px (img : image) (x y : Z) :
  im_px (alpha_source img) x y =
    if decide (im_mode img = M_P)
    then default (Pixel 0 0 0 255)
                 (im_palette img !! Z.to_nat (band0 (im_px img x y)))
    else im_px img x y.
Proof. unfold alpha_source. by case_decide. Qed.

(** Every pixel of the flattened and rebuilt image is the blend of white
    and the source colour through the source's alpha, made opaque. *)
Lemma jpg_flatten_rebuilt_px (img : image) (x y : Z) :
  im_mode img ∈ [M_RGBA; M_LA; M_P] ->
  in_bounds (im_width img) (im_height img) x y = true ->
  let s := im_px (alpha_source img) x y in
  im_px (without_exif (Optimizer.jpg_flatten img)) x y
    = Pixel (BLEND8 (band3 s) 255 (band0 s)) (BLEND8 (band3 s) 255 (band1 s))
            (BLEND8 (band3 s) 255 (band2 s)) 255.
Proof.
  intros Hm Hb s.
  pose proof (jpg_flatten_size img) as Hs. unfold im_size in Hs.
  injection Hs as Hw Hh.
  rewrite without_exif_px by (by rewrite Hw, Hh).
  rewrite jpg_flatten_paste by done.
  pose proof (alpha_source_size img) as Hs'. unfold im_size in Hs'.
  injection Hs' as Hw' Hh'.
  unfold paste. cbn [im_px im_mode im_width im_height Image_new fst snd im_size].
  rewrite Hw', Hh', Hb. cbn [andb]. fold s. reflexivity.
Qed.

(** * Facts about the optimizer *)

(** Unfolds the monadic plumbing so that a run becomes a [match] on the
    files and on Pillow's answers. *)
Ltac run_M :=
  unfold reencode, print, emit, logged, os_path_getsize, os_path_exists,
    Image_open, Image_save, true_div, try_except in *;
  unfold raise, mbind, M_bind, mret, M_ret in *;
  cbn [fs trace] in *.

(** Brings a trace built one event at a time into the form [tr ++ [...]]. *)
Ltac flat_trace := rewrite <- ?app_assoc; cbn [app].

Section OptimizerFacts.

Variable decode : bytes -> option image.
Variable encode : format -> save_params -> image -> save_outcome.
Variable can_write : string -> bool.

Local Abbreviation optimize_png := (Optimizer.optimize_png decode encode can_write).
Local Abbreviation optimize_jpg := (Optimizer.optimize_jpg decode encode can_write).
Local Abbreviation optimize_webp := (Optimizer.optimize_webp decode encode can_write).
Local Abbreviation loop_body := (Optimizer.loop_body decode encode can_write).
Local Abbreviation for_each := (Optimizer.for_each decode encode can_write).
Local Abbreviation main := (Optimizer.main decode encode can_write).
Local Abbreviation script := (Optimizer.script decode encode can_write).
Local Abbreviation reencode := (reencode decode encode can_write).
Local Abbreviation entry_events := (entry_events decode).
Local Abbreviation decodable := (decodable decode).

Lemma optimize_png_shape (p : string) (q : Z) :
  optimize_png p None q = reencode (fun img => img) PNG png_params p.
Proof. reflexivity. Qed.

Lemma optimize_jpg_shape (p : string) (q : Z) :
  optimize_jpg p None q = reencode Optimizer.jpg_flatten JPEG (jpeg_params q) p.
Proof. reflexivity. Qed.

Lemma optimize_webp_shape (p : string) (q : Z) :
  optimize_webp p None q = reencode (fun img => img) WEBP (webp_params q) p.
Proof. reflexivity. Qed.

Lemma length_Z_zero {A} (l : list A) : Z.of_nat (length l) = 0 <-> l = [].
Proof. destruct l; simpl; split; intros; (done || lia). Qed.

(** A present, non-empty, decodable file whose encoding succeeds is
    replaced by the encoding, and the report is the one of [run_events]. *)
Lemma reencode_Ok prep f ps p w bs img bs' :
  fs w !! p = Some bs -> bs <> [] -> decode bs = Some img ->
  can_write p = true ->
  encode f ps (without_exif (prep img)) = Encoded bs' ->
  reencode prep f ps p w =
    (Ok (Z.of_nat (length bs')),
     {| fs := <[p := bs']> (fs w);
        trace := trace w ++ run_events p f ps (without_exif (prep img))
                                       (Z.of_nat (length bs))
                                       (Z.of_nat (length bs')) |}).
Proof.
  intros Hp Hne Hd Hc He. run_M.
  rewrite Hp; cbn [fs trace]. rewrite Hp, Hd; cbn [fs trace].
  rewrite Hc, He; cbn [fs trace]. rewrite lookup_insert_eq.
  rewrite bool_decide_eq_false_2 by (by rewrite length_Z_zero).
  cbn [fs trace]. unfold run_events. by flat_trace.
Qed.

(** Conversely, a run that returns went through exactly these steps. *)
Lemma reencode_inv prep f ps p w n w' :
  reencode prep f ps p w = (Ok n, w') ->
  exists bs img bs',
    fs w !! p = Some bs /\ bs <> [] /\ decode bs = Some img /\
    can_write p = true /\
    encode f ps (without_exif (prep img)) = Encoded bs' /\
    n = Z.of_nat (length bs') /\
    w' = {| fs := <[p := bs']> (fs w);
            trace := trace w ++ run_events p f ps (without_exif (prep img))
                                           (Z.of_nat (length bs))
                                           (Z.of_nat (length bs')) |}.
Proof.
  intros H.
  destruct (fs w !! p) as [bs|] eqn:Hp; [|run_M; rewrite Hp in H; done].
  destruct (decode bs) as [img|] eqn:Hd;
    [|run_M; rewrite Hp in H; cbn [fs trace] in H; rewrite Hp, Hd in H; done].
  destruct (can_write p) eqn:Hc;
    [|run_M; rewrite Hp in H; cbn [fs trace] in H; rewrite Hp, Hd in H;
      cbn [fs trace] in H; rewrite Hc in H; done].
  destruct (encode f ps (without_exif (prep img))) as [bs'|e wr] eqn:He;
    [|run_M; rewrite Hp in H; cbn [fs trace] in H; rewrite Hp, Hd in H;
      cbn [fs trace] in H; rewrite Hc, He in H; done].
  destruct (decide (bs = [])) as [->|Hne].
  { run_M. rewrite Hp in H; cbn [fs trace] in H. rewrite Hp, Hd in H.
    cbn [fs trace] in H. rewrite Hc, He in H. cbn [fs trace] in H.
    rewrite lookup_insert_eq in H. simpl in H. done. }
  rewrite (reencode_Ok prep f ps p w bs img bs') in H by done.
  inversion H; subst. by exists bs, img, bs'.
Qed.

(** Whatever the outcome, a run touches no file but its own, keeps the set
    of files, and opens or saves only a file that is there. *)
Lemma reencode_frame prep f ps p w r w' :
  reencode prep f ps p w = (r, w') ->
  (exists tr, trace w' = trace w ++ tr /\ Forall (loop_event (fs w)) tr) /\
  (forall q, q <> p -> fs w' !! q = fs w !! q) /\
  (forall q, is_Some (fs w' !! q) <-> is_Some (fs w !! q)).
Proof.
  intros H. run_M.
  destruct (fs w !! p) as [bs|] eqn:Hp; cbn [fs trace] in H.
  2:{ inversion H; subst; cbn [fs trace]. split; [|done].
      eexists. flat_trace. split; [done|]. repeat constructor. }
  assert (Hsome : is_Some (fs w !! p)) by (by rewrite Hp).
  assert (Hdom : forall (v : bytes) q,
             is_Some (<[p := v]> (fs w) !! q) <-> is_Some (fs w !! q)).
  { intros v q. destruct (decide (p = q)) as [->|Hne].
    - rewrite lookup_insert_eq. by split; [|eauto].
    - by rewrite lookup_insert_ne. }
  rewrite Hp in H; cbn [fs trace] in H.
  destruct (decode bs) as [img|]; cbn [fs trace] in H.
  2:{ inversion H; subst; cbn [fs trace]. split; [|done].
      eexists. flat_trace. split; [done|]. by repeat constructor. }
  destruct (can_write p); cbn [fs trace] in H.
  2:{ inversion H; subst; cbn [fs trace]. split; [|done].
      eexists. flat_trace. split; [done|]. by repeat constructor. }
  destruct (encode f ps (without_exif (prep img))) as [bs'|e wr];
    cbn [fs trace] in H; rewrite ?Hp in H.
  2:{ inversion H; subst; cbn [fs trace]. split; [|split].
      - eexists. flat_trace. split; [done|]. by repeat constructor.
      - intros q Hq. by rewrite lookup_insert_ne.
      - apply Hdom. }
  rewrite lookup_insert_eq in H.
  destruct (bool_decide (Z.of_nat (length bs) = 0)); cbn [fs trace] in H;
    inversion H; subst; cbn [fs trace].
  - split; [|split].
    + eexists. flat_trace. split; [done|]. by repeat constructor.
    + intros q Hq. by rewrite lookup_insert_ne.
    + apply Hdom.
  - split; [|split].
    + eexists. flat_trace. split; [done|]. by repeat constructor.
    + intros q Hq. by rewrite lookup_insert_ne.
    + apply Hdom.
Qed.

(** *** One iteration of the loop of [main] *)

Lemma loop_body_skip p ft st w :
  fs w !! p = None ->
  loop_body (p, ft) st w =
    (Ok st, logged [EvExists p; EvPrint (MsgSkipping p)] w).
Proof.
  intros Hp. unfold Optimizer.loop_body. destruct st as [total ns]. run_M.
  rewrite Hp. rewrite bool_decide_eq_false_2 by (by intros [? ?]).
  cbn [negb fs trace]. by flat_trace.
Qed.

Lemma loop_body_known p ft f ps prep total ns w bs :
  handler_of ft = Some (f, ps, prep) -> fs w !! p = Some bs ->
  loop_body (p, ft) (total, ns) w =
    match reencode prep f ps p (logged [EvExists p; EvGetsize p] w) with
    | (Ok n, w') =>
        (Ok (total + (Z.of_nat (length bs) - n), Some n),
         logged [EvPrint MsgBlank] w')
    | (Raise e, w') => (Raise e, w')
    end.
Proof.
  intros Hh Hp. unfold Optimizer.loop_body.
  unfold os_path_exists, os_path_getsize, print, emit, logged.
  unfold raise, mbind, M_bind, mret, M_ret. cbn [fs trace].
  rewrite Hp, bool_decide_eq_true_2 by eauto. cbn [negb fs trace].
  rewrite Hp; cbn [fs trace]. rewrite <- app_assoc; cbn [app].
  unfold handler_of in Hh. repeat case_decide; simplify_eq.
  - rewrite optimize_png_shape. by destruct (reencode _ _ _ _ _) as [[n|e] w'].
  - rewrite optimize_jpg_shape. by destruct (reencode _ _ _ _ _) as [[n|e] w'].
  - rewrite optimize_webp_shape. by destruct (reencode _ _ _ _ _) as [[n|e] w'].
Qed.

(** A tag outside the [if]/[elif] chain leaves [new_size] as it was. *)
Lemma loop_body_unknown p ft total ns w bs :
  handler_of ft = None -> fs w !! p = Some bs ->
  loop_body (p, ft) (total, ns) w =
    match ns with
    | Some n =>
        (Ok (total + (Z.of_nat (length bs) - n), Some n),
         logged [EvExists p; EvGetsize p; EvPrint MsgBlank] w)
    | None => (Raise UnboundLocalError, logged [EvExists p; EvGetsize p] w)
    end.
Proof.
  intros Hh Hp. unfold Optimizer.loop_body.
  unfold os_path_exists, os_path_getsize, print, emit, logged.
  unfold raise, mbind, M_bind, mret, M_ret. cbn [fs trace].
  rewrite Hp, bool_decide_eq_true_2 by eauto. cbn [negb fs trace].
  rewrite Hp; cbn [fs trace].
  unfold handler_of in Hh. repeat case_decide; simplify_eq.
  destruct ns; cbn [fs trace]; by flat_trace.
Qed.

Lemma loop_event_dom (a b : gmap string bytes) ev :
  (forall q, is_Some (a !! q) <-> is_Some (b !! q)) ->
  loop_event a ev -> loop_event b ev.
Proof. intros Hd. destruct ev as [[]| | | | | |]; simpl; try done; apply Hd. Qed.

Lemma loop_body_frame entry st w r w' :
  loop_body entry st w = (r, w') ->
  (exists tr, trace w' = trace w ++ tr /\ Forall (loop_event (fs w)) tr) /\
  (forall q, q <> entry.1 -> fs w' !! q = fs w !! q) /\
  (forall q, is_Some (fs w' !! q) <-> is_Some (fs w !! q)).
Proof.
  destruct entry as [p ft], st as [total ns]. intros H. cbn [fst].
  destruct (fs w !! p) as [bs|] eqn:Hp.
  2:{ rewrite loop_body_skip in H by done. inversion H; subst.
      split; [|done]. eexists. split; [done|]. by repeat constructor. }
  destruct (handler_of ft) as [[[f ps] prep]|] eqn:Hh.
  - rewrite (loop_body_known _ _ _ _ _ _ _ _ _ Hh Hp) in H.
    destruct (reencode _ _ _ _ _) as [r1 w1] eqn:Hr.
    apply reencode_frame in Hr as [(tr & Htr & Hev) [Hne Hdom]].
    cbn [logged fs trace] in *.
    assert (Hev' : Forall (loop_event (fs w)) ([EvExists p; EvGetsize p] ++ tr)).
    { apply Forall_app. split; [by repeat constructor|done]. }
    destruct r1 as [n|e]; inversion H; subst; cbn [logged fs trace].
    + split; [|done]. exists (([EvExists p; EvGetsize p] ++ tr) ++ [EvPrint MsgBlank]).
      split; [rewrite Htr; by rewrite <- !app_assoc|].
      apply Forall_app. split; [done|by repeat constructor].
    + split; [|done]. exists ([EvExists p; EvGetsize p] ++ tr).
      split; [rewrite Htr; by rewrite <- !app_assoc|done].
  - rewrite (loop_body_unknown _ _ _ _ _ _ Hh Hp) in H.
    destruct ns; inversion H; subst; cbn [logged fs trace];
      (split; [|done]); eexists; (split; [done|]); by repeat constructor.
Qed.

(** *** The whole loop *)

Lemma for_each_app l1 l2 st w :
  for_each (l1 ++ l2) st w =
    match for_each l1 st w with
    | (Ok st1, w1) => for_each l2 st1 w1
    | (Raise e, w1) => (Raise e, w1)
    end.
Proof.
  revert st w. induction l1 as [|entry l1 IH]; intros st w; [done|].
  cbn [app Optimizer.for_each]. unfold mbind, M_bind.
  destruct (loop_body entry st w) as [[st1|e] w1]; [apply IH|done].
Qed.

Lemma for_each_frame l st w r w' :
  for_each l st w = (r, w') ->
  (exists tr, trace w' = trace w ++ tr /\ Forall (loop_event (fs w)) tr) /\
  (forall q, q ∉ l.*1 -> fs w' !! q = fs w !! q) /\
  (forall q, is_Some (fs w' !! q) <-> is_Some (fs w !! q)).
Proof.
  revert st w. induction l as [|entry l IH]; intros st w H.
  { inversion H; subst. split; [|done]. exists []. by rewrite app_nil_r. }
  cbn [Optimizer.for_each] in H. unfold mbind, M_bind in H.
  destruct (loop_body entry st w) as [[st1|e] w1] eqn:Hb;
    apply loop_body_frame in Hb as [(tr1 & Htr1 & Hev1) [Hne1 Hdom1]].
  - apply IH in H as [(tr2 & Htr2 & Hev2) [Hne2 Hdom2]].
    split; [|split].
    + exists (tr1 ++ tr2). split; [by rewrite Htr2, Htr1, app_assoc|].
      apply Forall_app. split; [done|].
      eapply List.Forall_impl; [|exact Hev2]. intros ev. by apply loop_event_dom.
    + intros q Hq. rewrite fmap_cons, not_elem_of_cons in Hq.
      destruct Hq as [Hq1 Hq2]. by rewrite Hne2, Hne1.
    + intros q. by rewrite Hdom2.
  - inversion H; subst. split; [eauto|split; [|assumption]].
    intros q Hq. rewrite fmap_cons, not_elem_of_cons in Hq. apply Hne1, Hq.
Qed.

Lemma entry_events_before (b1 b2 after : gmap string bytes) entry :
  b1 !! entry.1 = b2 !! entry.1 ->
  entry_events b1 after entry = entry_events b2 after entry.
Proof.
  destruct entry as [p ft]. cbn [fst]. intros E.
  unfold entry_events, file_size. by rewrite E.
Qed.

Lemma entry_savings_before (b1 b2 after : gmap string bytes) entry :
  b1 !! entry.1 = b2 !! entry.1 ->
  entry_savings b1 after entry = entry_savings b2 after entry.
Proof. intros E. unfold entry_savings, file_size. by rewrite E. Qed.

(** The trace and the running total of a loop that runs to its end, read
    off the files before and after. *)
Lemma for_each_Ok l :
  NoDup l.*1 -> Forall known_format l ->
  forall st w st' w',
    for_each l st w = (Ok st', w') ->
    trace w' = trace w ++ concat (entry_events (fs w) (fs w') <$> l) /\
    st'.1 = st.1 + sum_Z (entry_savings (fs w) (fs w') <$> l) /\
    Forall (decodable (fs w)) l.
Proof.
  induction l as [|[p ft] l IH]; intros Hnd Hk st w st' w' H.
  { inversion H; subst. simpl. split; [by rewrite app_nil_r|split; [lia|done]]. }
  rewrite fmap_cons in Hnd. apply NoDup_cons in Hnd as [Hp_l Hnd].
  cbn [fst] in Hp_l.
  apply Forall_cons in Hk as [[[[f ps] prep] Hh] Hk]. cbn [snd] in Hh.
  cbn [Optimizer.for_each] in H. unfold mbind, M_bind in H.
  destruct (loop_body (p, ft) st w) as [[st1|e] w1] eqn:Hb; [|done].
  pose proof (for_each_frame _ _ _ _ _ H) as [_ [Hrest _]].
  specialize (Hrest p Hp_l).
  pose proof (loop_body_frame _ _ _ _ _ Hb) as [_ [Hoff _]]. cbn [fst] in Hoff.
  destruct (IH Hnd Hk _ _ _ _ H) as (Htr & Hsum & Hdec).
  assert (Hdec' : Forall (decodable (fs w)) l).
  { apply Forall_forall. intros entry Hin bs Hbs.
    rewrite Forall_forall in Hdec. apply (Hdec entry Hin).
    rewrite <- Hbs. apply Hoff. intros Heq. apply Hp_l. rewrite <- Heq.
    apply list_elem_of_fmap. by exists entry. }
  clear Hdec.
  assert (Hsame : forall entry, entry ∈ l -> fs w1 !! entry.1 = fs w !! entry.1).
  { intros entry Hin. apply Hoff. intros Heq. apply Hp_l. rewrite <- Heq.
    apply list_elem_of_fmap. by exists entry. }
  assert (Hev : entry_events (fs w1) (fs w') <$> l
                = entry_events (fs w) (fs w') <$> l).
  { apply Forall_fmap_ext_1, Forall_forall. intros entry Hin.
    apply entry_events_before, Hsame, Hin. }
  assert (Hsv : entry_savings (fs w1) (fs w') <$> l
                = entry_savings (fs w) (fs w') <$> l).
  { apply Forall_fmap_ext_1, Forall_forall. intros entry Hin.
    apply entry_savings_before, Hsame, Hin. }
  rewrite Hev in Htr. rewrite Hsv in Hsum.
  rewrite !fmap_cons. cbn [concat sum_Z foldr].
  fold (sum_Z (entry_savings (fs w) (fs w') <$> l)).
  set (rest_sum := sum_Z (entry_savings (fs w) (fs w') <$> l)) in *.
  set (rest_events := concat (entry_events (fs w) (fs w') <$> l)) in *.
  destruct st as [total ns].
  destruct (fs w !! p) as [bs|] eqn:Hp.
  - rewrite (loop_body_known _ _ _ _ _ _ _ _ _ Hh Hp) in Hb.
    destruct (reencode _ _ _ _ _) as [[n|e] w2] eqn:Hr; [|done].
    apply reencode_inv in Hr
      as (bs0 & img & bs' & Hp0 & Hne & Hd & Hc & He & -> & ->).
    unfold logged in *. cbn [fs trace fst] in *.
    assert (bs0 = bs) as -> by congruence.
    inversion Hb; subst st1 w1; clear Hb.
    cbn [fs trace fst] in *. rewrite lookup_insert_eq in Hrest.
    unfold entry_events, entry_savings, file_size. cbn [fst].
    rewrite Hp, Hd, Hh, Hrest. split; [|split].
    + rewrite Htr. by rewrite <- !app_assoc.
    + rewrite Hsum. lia.
    + apply Forall_cons. split; [|done]. intros bs1 Hbs1. cbn [fst] in Hbs1.
      assert (bs1 = bs) as -> by congruence. by rewrite Hd.
  - rewrite loop_body_skip in Hb by done.
    inversion Hb; subst st1 w1; clear Hb.
    unfold logged in *. cbn [fs trace fst] in *.
    unfold entry_events, entry_savings. cbn [fst].
    rewrite Hp. split; [|split].
    + rewrite Htr. by rewrite <- !app_assoc.
    + rewrite Hsum. lia.
    + apply Forall_cons. split; [|done]. intros bs1 Hbs1. cbn [fst] in Hbs1.
      congruence.
Qed.

Lemma images_NoDup : NoDup Optimizer.images_to_optimize.*1.
Proof. apply NoDup_ListNoDup. repeat constructor; simpl; intuition discriminate. Qed.

Lemma images_known : Forall known_format Optimizer.images_to_optimize.
Proof. repeat constructor; by eexists. Qed.

(** What the trace of a loop reports as savings, entry by entry. *)
Lemma reported_savings_app tr1 tr2 :
  reported_savings (tr1 ++ tr2) = reported_savings tr1 ++ reported_savings tr2.
Proof. apply omap_app. Qed.

Lemma reported_savings_entry before after entry :
  known_format entry -> decodable before entry ->
  reported_savings (entry_events before after entry) =
    match before !! entry.1 with
    | Some _ => [entry_savings before after entry]
    | None => []
    end.
Proof.
  destruct entry as [p ft]. intros [[[f ps] prep] Hh] Hdec.
  unfold decodable in Hdec. cbn [fst snd] in *.
  unfold entry_events, entry_savings. cbn [fst]. rewrite Hh.
  destruct (before !! p) as [bs|]; [|done].
  by destruct (Hdec bs eq_refl) as [img ->].
Qed.

Lemma reported_savings_entries before after l :
  Forall known_format l -> Forall (decodable before) l ->
  reported_savings (concat (entry_events before after <$> l)) =
    entry_savings before after
      <$> filter (fun entry => is_Some (before !! entry.1)) l.
Proof.
  induction 1 as [|entry l Hk _ IH]; [done|]. intros Hdec.
  apply Forall_cons in Hdec as [Hd1 Hdec].
  rewrite fmap_cons. cbn [concat]. rewrite reported_savings_app, IH by done.
  rewrite reported_savings_entry by done. rewrite filter_cons.
  destruct (before !! entry.1) eqn:E.
  - rewrite decide_True by eauto. done.
  - rewrite decide_False by (by intros [? ?]). done.
Qed.

Lemma sum_Z_cons x l : sum_Z (x :: l) = x + sum_Z l.
Proof. reflexivity. Qed.

Lemma sum_savings_filter before after l :
  sum_Z (entry_savings before after
           <$> filter (fun entry => is_Some (before !! entry.1)) l)
  = sum_Z (entry_savings before after <$> l).
Proof.
  induction l as [|entry l IH]; [done|]. rewrite filter_cons.
  destruct (before !! entry.1) eqn:E.
  - rewrite decide_True by eauto. by rewrite !fmap_cons, !sum_Z_cons, IH.
  - rewrite decide_False by (by intros [? ?]).
    rewrite fmap_cons, sum_Z_cons, IH.
    unfold entry_savings at 2. rewrite E. lia.
Qed.

(** *** The one save of a processed file *)

Lemma reencode_saves prep f ps p w bs img :
  fs w !! p = Some bs -> decode bs = Some img ->
  exists tr,
    trace (reencode prep f ps p w).2 =
      trace w ++ [EvPrint (MsgOptimizing p); EvGetsize p; EvOpen p;
                  EvSave p f ps (without_exif (prep img))] ++ tr
    /\ Forall (fun ev => ~ is_save ev) tr.
Proof.
  intros Hp Hd. run_M.
  rewrite Hp; cbn [fs trace]. rewrite Hp, Hd; cbn [fs trace].
  destruct (can_write p); cbn [fs trace snd].
  2:{ exists []. split; [by flat_trace|done]. }
  destruct (encode f ps (without_exif (prep img))) as [bs'|e wr];
    cbn [fs trace snd].
  2:{ exists []. split; [by flat_trace|done]. }
  rewrite lookup_insert_eq.
  destruct (bool_decide (Z.of_nat (length bs) = 0)); cbn [fs trace snd].
  - eexists. split; [by flat_trace|]. repeat constructor. simpl. tauto.
  - eexists. split; [by flat_trace|]. repeat constructor; simpl; tauto.
Qed.

Lemma loop_body_saves p ft f ps prep st w bs img :
  handler_of ft = Some (f, ps, prep) ->
  fs w !! p = Some bs -> decode bs = Some img ->
  exists tr,
    trace (loop_body (p, ft) st w).2 =
      trace w ++ [EvExists p; EvGetsize p; EvPrint (MsgOptimizing p);
                  EvGetsize p; EvOpen p;
                  EvSave p f ps (without_exif (prep img))] ++ tr
    /\ Forall (fun ev => ~ is_save ev) tr.
Proof.
  intros Hh Hp Hd. destruct st as [total ns].
  rewrite (loop_body_known _ _ _ _ _ _ _ _ _ Hh Hp).
  destruct (reencode_saves prep f ps p (logged [EvExists p; EvGetsize p] w)
              bs img Hp Hd) as (tr & Htr & Hns).
  destruct (reencode _ _ _ _ _) as [[n|e] w1]; cbn [snd logged fs trace] in *.
  - exists (tr ++ [EvPrint MsgBlank]). split.
    + rewrite Htr. by rewrite <- !app_assoc.
    + apply Forall_app. split; [done|]. repeat constructor. simpl. tauto.
  - exists tr. split; [|done]. rewrite Htr. by rewrite <- !app_assoc.
Qed.

(** *** [main] *)

Lemma main_unfold w :
  main w =
    match for_each Optimizer.images_to_optimize (0, None) w with
    | (Ok st, w1) =>
        (Ok tt,
         logged [EvPrint (MsgTotal st.1 (inject_Z st.1 / 1024)%Q);
                 EvPrint MsgAllOptimized] w1)
    | (Raise e, w1) => (Raise e, w1)
    end.
Proof.
  unfold Optimizer.main, mbind, M_bind, print, emit, logged.
  destruct (for_each _ _ _) as [[st|e] w1]; [|done].
  cbn [fs trace]. by flat_trace.
Qed.

(** *** The claims about the optimizer *)

Lemma entry_events_elem before after entry l ev :
  entry ∈ l -> ev ∈ entry_events before after entry ->
  ev ∈ concat (entry_events before after <$> l).
Proof.
  intros Hin Hev. apply list_elem_of_In, in_concat.
  exists (entry_events before after entry). split.
  - apply in_map. by apply list_elem_of_In.
  - by apply list_elem_of_In.
Qed.

(** C3.  When [main] reaches its end, its trace is the worklist's entries
    one after the other followed by the two closing lines.  Each present
    file is reported with its size before, its size after, their
    difference, and that difference over the size before times 100; the
    savings the trace reports are those of the present files in worklist
    order; and the printed total is their sum, to which a skipped file
    contributes nothing. *)
Theorem C3_reported_savings_and_total (w w' : world) :
  main w = (Ok tt, w') ->
  let before := fs w in
  let after := fs w' in
  let processed :=
    filter (fun entry => is_Some (before !! entry.1)) Optimizer.images_to_optimize in
  let total := sum_Z (entry_savings before after <$> processed) in
  let tr := concat (entry_events before after <$> Optimizer.images_to_optimize) in
  trace w' = trace w ++ tr
               ++ [EvPrint (MsgTotal total (inject_Z total / 1024)%Q);
                   EvPrint MsgAllOptimized] /\
  reported_savings tr = entry_savings before after <$> processed /\
  total = sum_Z (reported_savings tr) /\
  forall p ft bs,
    (p, ft) ∈ Optimizer.images_to_optimize -> before !! p = Some bs ->
    let o := Z.of_nat (length bs) in
    let n := file_size after p in
    EvPrint (MsgOriginal o) ∈ tr /\ EvPrint (MsgOptimized n) ∈ tr /\
    EvPrint (MsgSaved (o - n) (inject_Z (o - n) / inject_Z o * 100)%Q) ∈ tr.
Proof.
  intros H before after processed total tr. rewrite main_unfold in H.
  destruct (for_each _ _ _) as [[st|e] w1] eqn:Hl; [|done].
  inversion H; subst w'; clear H. unfold logged in *. cbn [fs trace] in *.
  destruct (for_each_Ok _ images_NoDup images_known _ _ _ _ Hl)
    as (Htr & Hsum & Hdec).
  fold before after tr in Htr, Hsum, Hdec.
  assert (Hrep : reported_savings tr = entry_savings before after <$> processed)
    by (apply reported_savings_entries; [apply images_known|done]).
  assert (Htot : st.1 = total).
  { rewrite Hsum. unfold total, processed. cbn [fst].
    by rewrite sum_savings_filter. }
  rewrite Htot. split; [|split; [done|split; [by rewrite Hrep|]]].
  - rewrite Htr. by rewrite <- app_assoc.
  - intros p ft bs Hin Hp.
    set (o := Z.of_nat (length bs)). set (n := file_size after p).
    assert (Hk : known_format (p, ft)).
    { pose proof images_known as Hk. rewrite Forall_forall in Hk. by apply Hk. }
    destruct Hk as [[[f ps] prep] Hh]. cbn [snd] in Hh.
    rewrite Forall_forall in Hdec.
    destruct (Hdec _ Hin bs Hp) as [img Hd].
    assert (Hev : forall ev,
               ev ∈ run_events p f ps (without_exif (prep img)) o n -> ev ∈ tr).
    { intros ev Hev. apply (entry_events_elem _ _ (p, ft)); [done|].
      unfold entry_events. fold before. rewrite Hp, Hd, Hh.
      apply elem_of_app. right. apply elem_of_app. left.
      unfold file_size at 1. fold before. by rewrite Hp. }
    unfold run_events in Hev.
    repeat split; apply Hev; rewrite !elem_of_cons; tauto.
Qed.

(** C4.  For a JPEG entry whose source has mode RGBA, LA or P, [main]
    calls the encoder once, with quality 90, optimisation and the
    progressive flag, on an RGB image of the source's size without
    metadata.  Each of its pixels is the source colour (for a palettised
    source, the colour of the palette entry of the pixel's index, which is
    opaque black past the end of the palette) blended over white through
    that colour's own alpha: where the alpha is 0 the pixel is white, and
    where it is 255 the pixel has the source colour. *)
Theorem C4_jpg_flattened_on_white (p : string) (st : Optimizer.locals)
    (w : world) (bs : bytes) (img : image) :
  fs w !! p = Some bs -> decode bs = Some img ->
  im_mode img ∈ [M_RGBA; M_LA; M_P] ->
  exists out tr,
    trace (loop_body (p, "jpg") st w).2 =
      trace w ++ [EvExists p; EvGetsize p; EvPrint (MsgOptimizing p);
                  EvGetsize p; EvOpen p;
                  EvSave p JPEG
                    {| sp_quality := Some 90; sp_optimize := true;
                       sp_progressive := true; sp_compress_level := None;
                       sp_method := None |} out] ++ tr /\
    Forall (fun ev => ~ is_save ev) tr /\
    im_mode out = M_RGB /\ im_size out = im_size img /\ im_info out = ∅ /\
    forall x y,
      in_bounds (im_width img) (im_height img) x y = true ->
      let s :=
        if decide (im_mode img = M_P)
        then default (Pixel 0 0 0 255)
                     (im_palette img !! Z.to_nat (band0 (im_px img x y)))
        else im_px img x y in
      im_px out x y
        = Pixel (BLEND8 (band3 s) 255 (band0 s)) (BLEND8 (band3 s) 255 (band1 s))
                (BLEND8 (band3 s) 255 (band2 s)) 255 /\
      (band3 s = 0 -> im_px out x y = Pixel 255 255 255 255) /\
      (band3 s = 255 ->
       0 <= band0 s <= 255 -> 0 <= band1 s <= 255 -> 0 <= band2 s <= 255 ->
       im_px out x y = Pixel (band0 s) (band1 s) (band2 s) 255).
Proof.
  intros Hp Hd Hm.
  destruct (loop_body_saves p "jpg" JPEG (jpeg_params 90) Optimizer.jpg_flatten
              st w bs img eq_refl Hp Hd) as (tr & Htr & Hns).
  exists (without_exif (Optimizer.jpg_flatten img)), tr.
  split; [exact Htr|split; [exact Hns|]].
  split; [by rewrite without_exif_mode, jpg_flatten_paste|].
  split; [by rewrite without_exif_size, jpg_flatten_size|].
  split; [apply without_exif_info|].
  intros x y Hb s.
  assert (Hpx : im_px (without_exif (Optimizer.jpg_flatten img)) x y
                = Pixel (BLEND8 (band3 s) 255 (band0 s))
                        (BLEND8 (band3 s) 255 (band1 s))
                        (BLEND8 (band3 s) 255 (band2 s)) 255).
  { rewrite (jpg_flatten_rebuilt_px img x y Hm Hb). cbv zeta.
    by rewrite alpha_source_px. }
  split; [exact Hpx|split].
  - intros Ha. rewrite Hpx, Ha. by rewrite !BLEND8_transparent by lia.
  - intros Ha H0 H1 H2. rewrite Hpx, Ha. by rewrite !BLEND8_opaque by done.
Qed.

(** C5.  Let a record of the worklist name a file that does not exist.
    When the loop reaches the record, it prints the skip message, leaves
    the loop's variables as they are and goes on with the records that
    follow; and in the whole run, to its end or to an error, the file is
    neither opened nor saved and does not come into being.  The worklist
    has five records. *)
Theorem C5_missing_file_skipped (pre post : list (string * string))
    (p ft : string) :
  Optimizer.images_to_optimize = pre ++ (p, ft) :: post ->
  length Optimizer.images_to_optimize = 5%nat /\
  (forall w st1 w1,
     fs w !! p = None -> for_each pre (0, None) w = (Ok st1, w1) ->
     fs w1 !! p = None /\
     for_each Optimizer.images_to_optimize (0, None) w =
       for_each post st1 (logged [EvExists p; EvPrint (MsgSkipping p)] w1)) /\
  (forall w r w',
     fs w !! p = None -> main w = (r, w') ->
     fs w' !! p = None /\
     exists tr, trace w' = trace w ++ tr /\
                Forall (fun ev => ~ opens_or_writes p ev) tr).
Proof.
  intros Hsplit. split; [done|split].
  - intros w st1 w1 Hp Hpre.
    pose proof (for_each_frame _ _ _ _ _ Hpre) as [_ [_ Hdom]].
    assert (Hp1 : fs w1 !! p = None).
    { apply eq_None_not_Some. rewrite Hdom. by rewrite Hp; intros [? ?]. }
    split; [done|]. rewrite Hsplit, for_each_app, Hpre.
    cbn [Optimizer.for_each]. unfold mbind at 1, M_bind at 1.
    by rewrite loop_body_skip.
  - intros w r w' Hp H. rewrite main_unfold in H.
    destruct (for_each _ _ _) as [r1 w1] eqn:Hl.
    pose proof (for_each_frame _ _ _ _ _ Hl) as [(tr & Htr & Hev) [_ Hdom]].
    assert (Hnone : fs w1 !! p = None).
    { apply eq_None_not_Some. rewrite Hdom. by rewrite Hp; intros [? ?]. }
    assert (Hclean : Forall (fun ev => ~ opens_or_writes p ev) tr).
    { eapply List.Forall_impl; [|exact Hev]. intros ev Hle Hop.
      destruct ev; simpl in *; try done; subst;
        rewrite Hp in Hle; by destruct Hle. }
    destruct r1 as [st|e]; inversion H; subst; unfold logged; cbn [fs trace].
    + split; [done|]. eexists. rewrite Htr, <- app_assoc. split; [done|].
      apply Forall_app. split; [done|]. repeat constructor; simpl; tauto.
    + split; [done|]. by exists tr.
Qed.

(** C6, as the code has it.  For a present, decodable file of the worklist
    [main] calls the encoder once, on an image [out] without metadata and of
    the source's dimensions; when the entry is processed, the file holds
    what the encoder made of [out], and it is processed whenever the file is
    not empty, can be written and [out] can be encoded.  For a source that
    is not palettised, and is not an RGBA or LA source of the JPEG entry,
    [out] has the source's mode and the source's band values at every
    coordinate, and the bytes written depend on the source through mode,
    size and pixel data only: another file with these writes the same
    bytes.  For the JPEG entry and a source of mode RGBA, LA or P, [out]
    has mode RGB instead. *)
Theorem C6_output_rebuilt_from_pixels (p ft : string) (st : Optimizer.locals)
    (w : world) (bs : bytes) (img : image) :
  (p, ft) ∈ Optimizer.images_to_optimize ->
  fs w !! p = Some bs -> decode bs = Some img ->
  exists f ps out tr,
    trace (loop_body (p, ft) st w).2 =
      trace w ++ [EvExists p; EvGetsize p; EvPrint (MsgOptimizing p);
                  EvGetsize p; EvOpen p; EvSave p f ps out] ++ tr /\
    Forall (fun ev => ~ is_save ev) tr /\
    (forall st' w',
       loop_body (p, ft) st w = (Ok st', w') ->
       exists bs', encode f ps out = Encoded bs' /\ fs w' !! p = Some bs') /\
    (forall bs',
       bs <> [] -> can_write p = true -> encode f ps out = Encoded bs' ->
       exists st' w',
         loop_body (p, ft) st w = (Ok st', w') /\ fs w' !! p = Some bs') /\
    im_info out = ∅ /\ im_size out = im_size img /\
    (im_mode img ∉ [M_P; M_PA] ->
     ~ (ft = "jpg" /\ im_mode img ∈ [M_RGBA; M_LA]) ->
       im_mode out = im_mode img /\ getdata out = getdata img /\
       (forall x y,
          in_bounds (im_width img) (im_height img) x y = true ->
          bands (im_mode img) (im_px out x y)
            = bands (im_mode img) (im_px img x y)) /\
       (forall w2 st2 bs2 img2 st' w' st2' w2',
          fs w2 !! p = Some bs2 -> decode bs2 = Some img2 ->
          im_mode img2 = im_mode img -> im_size img2 = im_size img ->
          getdata img2 = getdata img ->
          loop_body (p, ft) st w = (Ok st', w') ->
          loop_body (p, ft) st2 w2 = (Ok st2', w2') ->
          fs w2' !! p = fs w' !! p)) /\
    (ft = "jpg" -> im_mode img ∈ [M_RGBA; M_LA; M_P] -> im_mode out = M_RGB).
Proof.
  intros Hin Hp Hd.
  assert (Hk : known_format (p, ft)).
  { pose proof images_known as Hk. rewrite Forall_forall in Hk. by apply Hk. }
  destruct Hk as [[[f ps] prep] Hh]. cbn [snd] in Hh.
  destruct (loop_body_saves p ft f ps prep st w bs img Hh Hp Hd)
    as (tr & Htr & Hns).
  exists f, ps, (without_exif (prep img)), tr.
  split; [done|split; [done|]].
  assert (Hprep : prep = Optimizer.jpg_flatten /\ ft = "jpg"
                  \/ prep = (fun i => i) /\ ft <> "jpg").
  { unfold handler_of in Hh. repeat case_decide; simplify_eq; auto. }
  assert (Hinv : forall w0 st0 bs0 img0 st' w',
             fs w0 !! p = Some bs0 -> decode bs0 = Some img0 ->
             loop_body (p, ft) st0 w0 = (Ok st', w') ->
             exists bs', encode f ps (without_exif (prep img0)) = Encoded bs' /\
                         fs w' !! p = Some bs').
  { intros w0 [total ns] bs0 img0 st' w' Hp0 Hd0 Hrun.
    rewrite (loop_body_known _ _ _ _ _ _ _ _ _ Hh Hp0) in Hrun.
    destruct (reencode _ _ _ _ _) as [[n|e] w1] eqn:Hr; [|done].
    apply reencode_inv in Hr
      as (b0 & i0 & b' & Hb0 & _ & Hi0 & _ & He & -> & ->).
    unfold logged in *. cbn [fs trace] in *.
    assert (b0 = bs0) as -> by congruence.
    assert (i0 = img0) as -> by congruence.
    inversion Hrun; subst. exists b'. split; [done|].
    cbn [fs]. apply lookup_insert_eq. }
  split; [|split; [|split; [done|split; [|split]]]].
  - intros st' w' Hrun. exact (Hinv w st bs img st' w' Hp Hd Hrun).
  - intros bs' Hne Hc He. destruct st as [total ns].
    rewrite (loop_body_known _ _ _ _ _ _ _ _ _ Hh Hp).
    rewrite (reencode_Ok prep f ps p _ bs img bs') by done.
    eexists _, _. split; [reflexivity|].
    unfold logged. cbn [fs]. apply lookup_insert_eq.
  - rewrite without_exif_size.
    destruct Hprep as [[-> _]|[-> _]]; [apply jpg_flatten_size|done].
  - intros Hpal Hnot.
    assert (Hsame : forall i, im_mode i = im_mode img -> prep i = i).
    { intros i Hi. destruct Hprep as [[-> Hj]|[-> _]]; [|done].
      apply jpg_flatten_other. rewrite Hi.
      rewrite !elem_of_cons, elem_of_nil in *. tauto. }
    rewrite (Hsame img eq_refl).
    split; [done|split; [apply without_exif_getdata|split]].
    + intros x y Hb. rewrite without_exif_px by done. apply bands_unbands.
    + intros w2 st2 bs2 img2 st' w' st2' w2' Hp2 Hd2 Hm2 Hs2 Hg2 Hrun Hrun2.
      destruct (Hinv w st bs img st' w' Hp Hd Hrun) as (b1 & He1 & ->).
      destruct (Hinv w2 st2 bs2 img2 st2' w2' Hp2 Hd2 Hrun2) as (b2 & He2 & ->).
      rewrite (Hsame img eq_refl) in He1. rewrite (Hsame img2 Hm2) in He2.
      rewrite (without_exif_only_pixels img2 img Hm2 Hs2 Hg2) in He2.
      congruence.
  - intros Hj Hm. destruct Hprep as [[-> _]|[_ Hne]]; [|done].
    rewrite without_exif_mode, jpg_flatten_paste by done. reflexivity.
Qed.

(** C9.  Let the loop have come through the records before [entry] and let
    the body raise at [entry].  Then [main] ends there with that exception:
    its final world is the world at the raise, so no later record is
    looked at and neither closing line is printed; run as a script, the
    interpreter reports the exception and exits with status 1.  The raise
    is not the missing-file case, and every file other than the one of
    [entry] is as the records before it left it. *)
Theorem C9_error_halts_batch (pre post : list (string * string))
    (entry : string * string) (w w1 w2 : world) (st1 : Optimizer.locals)
    (e : exn) :
  Optimizer.images_to_optimize = pre ++ entry :: post ->
  for_each pre (0, None) w = (Ok st1, w1) ->
  loop_body entry st1 w1 = (Raise e, w2) ->
  main w = (Raise e, w2) /\
  script true w = (logged [EvTraceback e] w2, 1) /\
  is_Some (fs w1 !! entry.1) /\
  (forall q, q <> entry.1 -> fs w2 !! q = fs w1 !! q) /\
  exists tr,
    trace w2 = trace w ++ tr /\
    Forall (fun ev => forall total kb,
                ev <> EvPrint (MsgTotal total kb) /\ ev <> EvPrint MsgAllOptimized) tr.
Proof.
  intros Hsplit Hpre Hbody.
  assert (Hloop : for_each Optimizer.images_to_optimize (0, None) w = (Raise e, w2)).
  { rewrite Hsplit, for_each_app, Hpre. cbn [Optimizer.for_each].
    unfold mbind, M_bind. by rewrite Hbody. }
  assert (Hmain : main w = (Raise e, w2)) by (by rewrite main_unfold, Hloop).
  split; [done|split; [|split; [|split]]].
  - unfold Optimizer.script. by rewrite Hmain.
  - destruct (fs w1 !! entry.1) eqn:Hp; [eauto|].
    destruct entry as [p ft]. by rewrite loop_body_skip in Hbody.
  - by destruct (loop_body_frame _ _ _ _ _ Hbody) as [_ [Hoff _]].
  - destruct (for_each_frame _ _ _ _ _ Hloop) as [(tr & Htr & Hev) _].
    exists tr. split; [done|].
    eapply List.Forall_impl; [|exact Hev]. intros ev Hle total kb.
    split; intros ->; exact Hle.
Qed.

(** C10.  [optimize_png] does not depend on its [quality] argument: two
    calls that differ only there return the same value and leave the same
    world; and the one save of a call that overwrites its input passes
    [optimize=True] and [compress_level=9] and no quality. *)
Theorem C10_png_quality_unused (p : string) (output_path : option string)
    (q1 q2 : Z) (w : world) :
  optimize_png p output_path q1 w = optimize_png p output_path q2 w /\
  forall bs img,
    fs w !! p = Some bs -> decode bs = Some img ->
    exists tr,
      trace (optimize_png p None q1 w).2 =
        trace w ++ [EvPrint (MsgOptimizing p); EvGetsize p; EvOpen p;
                    EvSave p PNG
                      {| sp_quality := None; sp_optimize := true;
                         sp_progressive := false; sp_compress_level := Some 9;
                         sp_method := None |} (without_exif img)] ++ tr
      /\ Forall (fun ev => ~ is_save ev) tr.
Proof.
  split; [reflexivity|]. intros bs img Hp Hd. rewrite optimize_png_shape.
  exact (reencode_saves (fun i => i) PNG png_params p w bs img Hp Hd).
Qed.

End OptimizerFacts.

(** *** The optimizer on the sample files *)

Lemma C3_witness :
  let w' := (Optimizer.main sample_decode sample_encode sample_can_write
               sample_world).2 in
  Optimizer.main sample_decode sample_encode sample_can_write sample_world
    = (Ok tt, w') /\
  exists tr,
    trace w' = tr ++ [EvPrint (MsgTotal 3 (inject_Z 3 / 1024)%Q);
                      EvPrint MsgAllOptimized] /\
    reported_savings tr = [1; 2].
Proof.
  intros w'.
  assert (H : Optimizer.main sample_decode sample_encode sample_can_write
                sample_world = (Ok tt, w')) by (vm_compute; reflexivity).
  split; [exact H|].
  destruct (C3_reported_savings_and_total _ _ _ _ _ H) as (Htr & Hrep & _).
  eexists. split; [exact Htr|exact Hrep].
Defined.

Lemma C4_witness :
  (exists out tr,
     trace (Optimizer.loop_body sample_decode sample_encode sample_can_write
              ("public/cache-mcclure-og.jpg", "jpg") (0, None) sample_world).2
     = [EvExists "public/cache-mcclure-og.jpg";
        EvGetsize "public/cache-mcclure-og.jpg";
        EvPrint (MsgOptimizing "public/cache-mcclure-og.jpg");
        EvGetsize "public/cache-mcclure-og.jpg";
        EvOpen "public/cache-mcclure-og.jpg";
        EvSave "public/cache-mcclure-og.jpg" JPEG (jpeg_params 90) out] ++ tr /\
     im_px out 0 0 = Pixel 255 255 255 255 /\
     im_px out 1 0 = Pixel 200 100 50 255) /\
  (exists out tr,
     trace (Optimizer.loop_body sample_decode_p sample_encode sample_can_write
              ("public/cache-mcclure-og.jpg", "jpg") (0, None)
              sample_world_palette).2
     = [EvExists "public/cache-mcclure-og.jpg";
        EvGetsize "public/cache-mcclure-og.jpg";
        EvPrint (MsgOptimizing "public/cache-mcclure-og.jpg");
        EvGetsize "public/cache-mcclure-og.jpg";
        EvOpen "public/cache-mcclure-og.jpg";
        EvSave "public/cache-mcclure-og.jpg" JPEG (jpeg_params 90) out] ++ tr /\
     im_px out 0 0 = Pixel 255 0 0 255).
Proof.
  split.
  - assert (Hm : im_mode sample_rgba ∈ [M_RGBA; M_LA; M_P])
      by (apply elem_of_cons; by left).
    destruct (C4_jpg_flattened_on_white sample_decode sample_encode
                sample_can_write "public/cache-mcclure-og.jpg" (0, None)
                sample_world [Byte.x01; Byte.x00; Byte.x00] sample_rgba
                eq_refl eq_refl Hm)
      as (out & tr & Htr & _ & _ & _ & _ & Hpx).
    exists out, tr. split; [exact Htr|]. split.
    + exact (proj1 (proj2 (Hpx 0 0 eq_refl)) eq_refl).
    + apply (proj2 (proj2 (Hpx 1 0 eq_refl)) eq_refl); simpl; lia.
  - assert (Hm : im_mode sample_p_red ∈ [M_RGBA; M_LA; M_P])
      by (apply elem_of_cons; right; apply elem_of_cons; right;
          apply elem_of_cons; by left).
    destruct (C4_jpg_flattened_on_white sample_decode_p sample_encode
                sample_can_write "public/cache-mcclure-og.jpg" (0, None)
                sample_world_palette [Byte.x03] sample_p_red
                eq_refl eq_refl Hm)
      as (out & tr & Htr & _ & _ & _ & _ & Hpx).
    exists out, tr. split; [exact Htr|].
    apply (proj2 (proj2 (Hpx 0 0 eq_refl)) eq_refl); simpl; lia.
Defined.

Lemma C5_witness :
  fs (Optimizer.main sample_decode sample_encode sample_can_write sample_world).2
    !! "src/assets/covers/fracture-engine.png" = None.
Proof.
  destruct (C5_missing_file_skipped sample_decode sample_encode sample_can_write
              [] (tail Optimizer.images_to_optimize)
              "src/assets/covers/fracture-engine.png" "png" eq_refl)
    as (_ & _ & Hrun).
  destruct (Hrun sample_world _ _ eq_refl (surjective_pairing _)) as [H _].
  exact H.
Defined.

Lemma C6_witness :
  exists out bs',
    fs (Optimizer.loop_body sample_decode sample_encode sample_can_write
          ("public/covers/fracture-engine.png", "png") (0, None) sample_world).2
      !! "public/covers/fracture-engine.png" = Some bs' /\
    (exists f ps, sample_encode f ps out = Encoded bs') /\
    im_info out = ∅ /\ im_mode out = M_RGB /\ getdata out = [[1; 2; 3]].
Proof.
  assert (Hin : ("public/covers/fracture-engine.png", "png")
                  ∈ Optimizer.images_to_optimize)
    by (apply elem_of_cons; right; apply elem_of_cons; by left).
  destruct (C6_output_rebuilt_from_pixels sample_decode sample_encode
              sample_can_write "public/covers/fracture-engine.png" "png"
              (0, None) sample_world [Byte.x02; Byte.x00] sample_rgb
              Hin eq_refl eq_refl)
    as (f & ps & out & tr & _ & _ & Hfile & _ & Hinfo & _ & Hsame & _).
  destruct Hsame as (Hmode & Hdata & _).
  { rewrite !elem_of_cons, elem_of_nil. simpl. intuition discriminate. }
  { intros [Hj _]. discriminate Hj. }
  assert (Hrun :
    Optimizer.loop_body sample_decode sample_encode sample_can_write
      ("public/covers/fracture-engine.png", "png") (0, None) sample_world
    = (Ok (1, Some 1),
       (Optimizer.loop_body sample_decode sample_encode sample_can_write
          ("public/covers/fracture-engine.png", "png") (0, None) sample_world).2))
    by (vm_compute; reflexivity).
  destruct (Hfile _ _ Hrun) as (bs' & He & Hfs).
  exists out, bs'. split; [exact Hfs|]. split; [by exists f, ps|].
  split; [exact Hinfo|split; [exact Hmode|exact Hdata]].
Defined.

(** The JPEG entry on a source with alpha: the image handed to the encoder
    is RGB, the source is RGBA. *)
Lemma C6_jpg_entry_changes_mode :
  let p := "public/cache-mcclure-og.jpg" in
  let run := Optimizer.main sample_decode sample_encode sample_can_write sample_world in
  exists bs img out,
    fs sample_world !! p = Some bs /\ sample_decode bs = Some img /\
    trace run.2 !! 22%nat = Some (EvSave p JPEG (jpeg_params 90) out) /\
    im_mode out <> im_mode img.
Proof.
  exists [Byte.x01; Byte.x00; Byte.x00], sample_rgba,
         (without_exif (Optimizer.jpg_flatten sample_rgba)).
  split; [reflexivity|split; [reflexivity|split; [reflexivity|]]].
  discriminate.
Qed.

Lemma C9_witness :
  (Optimizer.script sample_decode sample_encode sample_can_write true
     sample_world_broken).2 = 1.
Proof.
  pose (pre := take 3 Optimizer.images_to_optimize).
  pose (entry := ("public/covers/fracture-engine.webp", "webp")).
  pose (w1 := (Optimizer.for_each sample_decode sample_encode sample_can_write
                 pre (0, None) sample_world_broken).2).
  pose (w2 := (Optimizer.loop_body sample_decode sample_encode sample_can_write
                 entry (1, Some 1) w1).2).
  destruct (C9_error_halts_batch sample_decode sample_encode sample_can_write
              pre (drop 4 Optimizer.images_to_optimize) entry
              sample_world_broken w1 w2 (1, Some 1) UnidentifiedImageError
              eq_refl eq_refl eq_refl) as (_ & Hscript & _).
  exact (f_equal snd Hscript).
Defined.

Lemma C10_witness :
  exists tr,
    trace (Optimizer.optimize_png sample_decode sample_encode sample_can_write
             "public/covers/fracture-engine.png" None 85 sample_world).2 =
      [EvPrint (MsgOptimizing "public/covers/fracture-engine.png");
       EvGetsize "public/covers/fracture-engine.png";
       EvOpen "public/covers/fracture-engine.png";
       EvSave "public/covers/fracture-engine.png" PNG png_params
         (without_exif sample_rgb)] ++ tr.
Proof.
  destruct (C10_png_quality_unused sample_decode sample_encode sample_can_write
              "public/covers/fracture-engine.png" None 85 10 sample_world)
    as [_ Hsave].
  destruct (Hsave [Byte.x02; Byte.x00] sample_rgb eq_refl eq_refl)
    as (tr & Htr & _).
  exists tr. exact Htr.
Defined.

(** * Facts about the generator *)

(** ** The output path *)

Lemma string_append_cons (c : ascii) (s t : string) :
  (String c s ++ t)%string = String c (s ++ t)%string.
Proof. reflexivity. Qed.

Lemma endswith_sep_app (s t : string) :
  t <> "" -> endswith_sep (s ++ t)%string = endswith_sep t.
Proof.
  intros Ht. induction s as [|c s IH]; [done|].
  rewrite string_append_cons. cbn [endswith_sep]. rewrite IH.
  destruct (s ++ t)%string eqn:E; [|done].
  destruct s; [by change (t = "") in E|by rewrite string_append_cons in E].
Qed.

Lemma string_app_assoc (a b c : string) :
  ((a ++ b) ++ c)%string = (a ++ (b ++ c))%string.
Proof.
  induction a as [|x a IH]; [done|]. by rewrite !string_append_cons, IH.
Qed.

(** A component that does not start with a separator is appended to the
    path, after a separator unless the path is empty or ends with one. *)
Lemma join_step_relative (path b : string) :
  startswith_sep b = false ->
  exists dir, join_step path b = (dir ++ b)%string /\
              (dir = "" \/ endswith_sep dir = true).
Proof.
  intros Hb. unfold join_step. rewrite Hb.
  destruct (bool_decide (path = "")) eqn:He; cbn [orb].
  - apply bool_decide_eq_true in He as ->. exists "". auto.
  - destruct (endswith_sep path) eqn:Hs.
    + exists path. auto.
    + exists (path ++ "/")%string. split; [by rewrite string_app_assoc|].
      right. by rewrite endswith_sep_app.
Qed.

Lemma join_step_after_name (path b : string) :
  startswith_sep b = false -> path <> "" -> endswith_sep path = false ->
  join_step path b = (path ++ "/" ++ b)%string.
Proof.
  intros Hb Hne Hs. unfold join_step.
  by rewrite Hb, Hs, bool_decide_eq_false_2.
Qed.

(** The image is written to a file named [cache-mcclure-og.jpg] directly
    inside a directory named [public]. *)
Lemma output_path_under_public (script_file : string) :
  exists dir,
    Generator.output_path script_file = (dir ++ "public/cache-mcclure-og.jpg")%string /\
    (dir = "" \/ endswith_sep dir = true).
Proof.
  unfold Generator.output_path, os_path_join. cbn [fold_left].
  destruct (join_step_relative
              (os_path_dirname (os_path_dirname script_file)) "public" eq_refl)
    as (dir & -> & Hdir).
  exists dir. split; [|done].
  rewrite join_step_after_name.
  - by rewrite string_app_assoc.
  - reflexivity.
  - destruct dir; discriminate.
  - by rewrite endswith_sep_app.
Qed.

Lemma logged_logged (a b : list event) (w : world) :
  logged b (logged a w) = logged (a ++ b) w.
Proof. unfold logged. cbn [fs trace]. by rewrite app_assoc. Qed.

Lemma logged_nil (w : world) : logged [] w = w.
Proof. destruct w. unfold logged. cbn [fs trace]. by rewrite app_nil_r. Qed.

(** The threshold on the size in KB is a threshold on the size in bytes. *)
Lemma kb_threshold (size : Z) :
  (300 < inject_Z size / 1024)%Q <-> 300 * 1024 < size.
Proof. unfold Qlt, Qdiv, Qmult, Qinv, inject_Z. simpl. lia. Qed.

Section GeneratorFacts.

Variable font : Type.
Variable truetype : bytes -> Z -> result font.
Variable load_default : font.
Variable textbbox : font -> string -> result (Z * Z * Z * Z).
Variable render_text :
  font -> string -> Z * Z -> Z * Z * Z -> image -> result (Z -> Z -> pixel).
Variable encode : format -> save_params -> image -> save_outcome.
Variable can_write : string -> bool.
Variable script_file : string.

Local Abbreviation find_font := (Generator.find_font font truetype).
Local Abbreviation select_fonts := (Generator.select_fonts font truetype load_default).
Local Abbreviation draw_strings :=
  (Generator.draw_strings font load_default textbbox render_text).
Local Abbreviation create_og_image :=
  (Generator.create_og_image font truetype load_default textbbox render_text
     encode can_write script_file).
Local Abbreviation script :=
  (Generator.script font truetype load_default textbbox render_text
     encode can_write script_file).
Local Abbreviation canvas_of := (canvas_of load_default textbbox render_text).
Local Abbreviation out_path := (Generator.output_path script_file).

(** ** Font selection *)

(** Paths that do not exist are passed over, one [exists] test each. *)
Lemma find_font_skip pre rest st w :
  Forall (missing w) pre ->
  find_font (pre ++ rest) st w = find_font rest st (logged (EvExists <$> pre) w).
Proof.
  revert w. induction pre as [|p pre IH]; intros w Hpre.
  { by rewrite logged_nil. }
  apply Forall_cons in Hpre as [Hp Hpre]. unfold missing in Hp.
  cbn [app Generator.find_font]. unfold mbind at 1, M_bind at 1, os_path_exists.
  rewrite Hp, bool_decide_eq_false_2 by (by intros [? ?]).
  change {| fs := fs w; trace := trace w ++ [EvExists p] |}
    with (logged [EvExists p] w).
  rewrite IH by exact Hpre. by rewrite fmap_cons, logged_logged.
Qed.

(** The first path that exists is loaded at the two sizes and ends the
    loop; an exception of the loader leaves the loop. *)
Lemma find_font_found p rest st w bs :
  fs w !! p = Some bs ->
  find_font (p :: rest) st w =
    match truetype bs 80 with
    | Ok t =>
        match truetype bs 40 with
        | Ok s =>
            (Ok (Some t, Some s),
             logged [EvExists p; EvTruetype p 80; EvTruetype p 40] w)
        | Raise e =>
            (Raise e, logged [EvExists p; EvTruetype p 80; EvTruetype p 40] w)
        end
    | Raise e => (Raise e, logged [EvExists p; EvTruetype p 80] w)
    end.
Proof.
  intros Hp. cbn [Generator.find_font].
  unfold mbind, M_bind, mret, M_ret, os_path_exists, Generator.ImageFont_truetype,
    logged. cbn [fs trace].
  rewrite Hp, bool_decide_eq_true_2 by eauto. cbn [fs trace]. rewrite Hp.
  destruct (truetype bs 80) as [t|e]; [|by flat_trace].
  cbn [fs trace]. rewrite Hp.
  destruct (truetype bs 40) as [s|e]; by flat_trace.
Qed.

Lemma select_fonts_none w :
  Forall (missing w) Generator.font_paths ->
  select_fonts w =
    (Ok (Some load_default, Some load_default),
     logged (EvExists <$> Generator.font_paths) w).
Proof.
  intros Hnone. unfold Generator.select_fonts, try_except, mbind, M_bind.
  rewrite <- (app_nil_r Generator.font_paths) at 1.
  by rewrite find_font_skip.
Qed.

Lemma select_fonts_found w pre p post bs :
  Generator.font_paths = pre ++ p :: post ->
  Forall (missing w) pre -> fs w !! p = Some bs ->
  select_fonts w =
    match truetype bs 80, truetype bs 40 with
    | Ok t, Ok s =>
        (Ok (Some t, Some s),
         logged ((EvExists <$> pre ++ [p]) ++ [EvTruetype p 80; EvTruetype p 40]) w)
    | Ok _, Raise _ =>
        (Ok (Some load_default, Some load_default),
         logged ((EvExists <$> pre ++ [p]) ++ [EvTruetype p 80; EvTruetype p 40]) w)
    | Raise _, _ =>
        (Ok (Some load_default, Some load_default),
         logged ((EvExists <$> pre ++ [p]) ++ [EvTruetype p 80]) w)
    end.
Proof.
  intros Hsplit Hpre Hp. unfold Generator.select_fonts, try_except, mbind, M_bind.
  rewrite Hsplit, find_font_skip by done.
  rewrite (find_font_found p post _ _ bs) by done.
  rewrite fmap_app, <- !app_assoc. cbn [fmap list_fmap app].
  destruct (truetype bs 80) as [t|e]; [destruct (truetype bs 40) as [s|e]|];
    by rewrite logged_logged.
Qed.

Lemma first_existing w (paths : list string) :
  Forall (missing w) paths \/
  exists pre p post bs,
    paths = pre ++ p :: post /\ Forall (missing w) pre /\ fs w !! p = Some bs.
Proof.
  induction paths as [|q paths IH]; [by left|].
  destruct (fs w !! q) as [bs|] eqn:Hq.
  { right. exists [], q, paths, bs. by repeat split. }
  destruct IH as [Hnone|(pre & p & post & bs & -> & Hpre & Hp)].
  - left. by constructor.
  - right. exists (q :: pre), p, post, bs. repeat split; [|done]. by constructor.
Qed.

Lemma exists_events_no_save (paths : list string) :
  Forall (fun ev => ~ is_save ev) (EvExists <$> paths).
Proof. apply Forall_fmap, Forall_forall. intros p _. simpl. tauto. Qed.

(** The selection never raises, touches no file and saves nothing. *)
Lemma select_fonts_total w :
  exists fonts tr,
    select_fonts w = (Ok fonts, logged tr w) /\ Forall (fun ev => ~ is_save ev) tr.
Proof.
  destruct (first_existing w Generator.font_paths)
    as [Hnone|(pre & p & post & bs & Hsplit & Hpre & Hp)].
  - eexists _, _. split; [by apply select_fonts_none|apply exists_events_no_save].
  - rewrite (select_fonts_found w pre p post bs Hsplit Hpre Hp).
    destruct (truetype bs 80) as [t|e]; [destruct (truetype bs 40) as [s|e]|];
      (eexists _, _; split; [reflexivity|]);
      (apply Forall_app; split; [apply exists_events_no_save|]);
      repeat constructor; simpl; tauto.
Qed.

(** ** Drawing *)

(** Measuring and rendering do not touch the world. *)
Lemma draw_strings_pure fonts img w w0 :
  draw_strings fonts img w = ((draw_strings fonts img w0).1, w).
Proof.
  destruct fonts as [title_font subtitle_font].
  unfold Generator.draw_strings, Generator.draw_textbbox, Generator.draw_text,
    Generator.lift, mbind, M_bind, mret, M_ret.
  destruct (textbbox _ Generator.title) as [[[[l1 t1] r1] b1]|e]; [|done].
  destruct (textbbox _ Generator.subtitle) as [[[[l2 t2] r2] b2]|e]; [|done].
  destruct (render_text _ Generator.title _ _ _) as [px1|e]; [|done].
  by destruct (render_text _ Generator.subtitle _ _ _) as [px2|e].
Qed.

(** Drawing changes pixels only. *)
Lemma draw_strings_shape fonts img w img' w' :
  draw_strings fonts img w = (Ok img', w') ->
  im_mode img' = im_mode img /\ im_size img' = im_size img.
Proof.
  destruct fonts as [title_font subtitle_font].
  unfold Generator.draw_strings, Generator.draw_textbbox, Generator.draw_text,
    Generator.lift, mbind, M_bind, mret, M_ret.
  destruct (textbbox _ Generator.title) as [[[[l1 t1] r1] b1]|e]; [|done].
  destruct (textbbox _ Generator.subtitle) as [[[[l2 t2] r2] b2]|e]; [|done].
  destruct (render_text _ Generator.title _ _ _) as [px1|e]; [|done].
  destruct (render_text _ Generator.subtitle _ _ _) as [px2|e]; [|done].
  intros H. by inversion H.
Qed.

(** The canvas that is saved is an RGB image of 1200 by 630. *)
Lemma canvas_shape fonts img :
  canvas_of fonts = Ok img ->
  im_mode img = M_RGB /\ im_size img = (1200, 630).
Proof.
  unfold canvas_of. intros H.
  destruct (draw_strings fonts _ _) as [r w'] eqn:Hrun in H. cbn [fst] in H. subst r.
  by destruct (draw_strings_shape _ _ _ _ _ Hrun).
Qed.

(** ** The report *)

Lemma report_spec (p : string) (w : world) (bs : bytes) :
  fs w !! p = Some bs ->
  Generator.report p w = (Ok tt, logged (report_events p (Z.of_nat (length bs))) w).
Proof.
  intros Hp. unfold Generator.report, report_events.
  unfold print, emit, os_path_getsize, logged, mbind, M_bind, mret, M_ret.
  cbn [fs trace]. rewrite Hp. cbn [fs trace].
  destruct (Qlt_le_dec _ _) as [Hlt|Hle].
  - rewrite decide_True by (by apply kb_threshold). cbn [fs trace]. by flat_trace.
  - rewrite decide_False; [cbn [fs trace]; by flat_trace|].
    intros Hlt. apply kb_threshold in Hlt. by apply Qle_not_lt in Hle.
Qed.

(** ** The whole function *)

Lemma create_og_image_unfold w :
  create_og_image w =
    match select_fonts w with
    | (Ok fonts, w1) =>
        match canvas_of fonts with
        | Ok img =>
            match Image_save can_write encode img out_path JPEG
                    Generator.og_save_params w1 with
            | (Ok _, w2) => Generator.report out_path w2
            | (Raise e, w2) => (Raise e, w2)
            end
        | Raise e => (Raise e, w1)
        end
    | (Raise e, w1) => (Raise e, w1)
    end.
Proof.
  unfold Generator.create_og_image, mbind, M_bind.
  destruct (select_fonts w) as [[fonts|e] w1]; [|done].
  rewrite (draw_strings_pure fonts _ w1 {| fs := ∅; trace := [] |}).
  unfold canvas_of. by destruct (draw_strings fonts _ _).1.
Qed.

(** Fonts found or not, if the strings can be measured and drawn and the
    file can be written, the function returns: the file holds the
    encoding, and the trace ends with the save and the report. *)
Lemma create_og_image_Ok w fonts tr img bs :
  select_fonts w = (Ok fonts, logged tr w) ->
  canvas_of fonts = Ok img ->
  can_write out_path = true ->
  encode JPEG Generator.og_save_params img = Encoded bs ->
  create_og_image w =
    (Ok tt,
     {| fs := <[out_path := bs]> (fs w);
        trace := trace w ++ tr
                   ++ EvSave out_path JPEG Generator.og_save_params img
                        :: report_events out_path (Z.of_nat (length bs)) |}).
Proof.
  intros Hf Hc Hw He. rewrite create_og_image_unfold, Hf, Hc.
  unfold Image_save, logged. cbn [fs trace]. rewrite Hw, He.
  rewrite (report_spec _ _ bs) by (cbn [fs]; apply lookup_insert_eq).
  unfold logged. cbn [fs trace]. by rewrite <- !app_assoc.
Qed.

Lemma create_og_image_inv w w' :
  create_og_image w = (Ok tt, w') ->
  exists fonts tr img bs,
    select_fonts w = (Ok fonts, logged tr w) /\
    Forall (fun ev => ~ is_save ev) tr /\
    canvas_of fonts = Ok img /\
    can_write out_path = true /\
    encode JPEG Generator.og_save_params img = Encoded bs /\
    w' = {| fs := <[out_path := bs]> (fs w);
            trace := trace w ++ tr
                       ++ EvSave out_path JPEG Generator.og_save_params img
                            :: report_events out_path (Z.of_nat (length bs)) |}.
Proof.
  intros H. destruct (select_fonts_total w) as (fonts & tr & Hf & Hns).
  destruct (canvas_of fonts) as [img|e] eqn:Hc.
  2:{ by rewrite create_og_image_unfold, Hf, Hc in H. }
  destruct (can_write out_path) eqn:Hw.
  2:{ rewrite create_og_image_unfold, Hf, Hc in H. unfold Image_save in H.
      by rewrite Hw in H. }
  destruct (encode JPEG Generator.og_save_params img) as [bs|e wr] eqn:He.
  2:{ rewrite create_og_image_unfold, Hf, Hc in H. unfold Image_save in H.
      by rewrite Hw, He in H. }
  rewrite (create_og_image_Ok w fonts tr img bs Hf Hc Hw He) in H.
  inversion H; subst w'. by exists fonts, tr, img, bs.
Qed.

(** ** The claims about the generator *)

(** C1 (what the code does).  When Pillow is missing the import at the top
    of the file raises before the [try] is entered: the run ends with the
    interpreter's traceback and status 1, and neither line of the install
    hint is printed.  When Pillow is there and the generation raises, the
    handlers print (the hint for an [ImportError], the error message for
    any other exception) and the run ends with status 1. *)
Theorem C1_missing_pillow_gives_traceback (w : world) :
  script false w = (logged [EvTraceback ModuleNotFoundError] w, 1) /\
  (forall e w',
     create_og_image w = (Raise e, w') ->
     script true w =
       (logged (if is_ImportError e
                then [EvPrint MsgPillowMissing; EvPrint MsgInstallHint]
                else [EvPrint (MsgErrorCreating e)]) w', 1)).
Proof.
  split; [reflexivity|]. intros e w' H.
  unfold Generator.script. cbn [negb]. rewrite H. by destruct (is_ImportError e).
Qed.

(** C2, as the code has it.  A run that returns has saved once: an RGB
    image of 1200 by 630, as JPEG with [quality=90] and [optimize=True]
    and without the progressive flag, to the file [cache-mcclure-og.jpg]
    of a directory [public]; the file holds what the encoder produced. *)
Theorem C2_one_rgb_jpeg_saved (w w' : world) :
  create_og_image w = (Ok tt, w') ->
  exists tr img bs tr' dir,
    trace w' = trace w ++ tr
                 ++ EvSave out_path JPEG
                      {| sp_quality := Some 90; sp_optimize := true;
                         sp_progressive := false; sp_compress_level := None;
                         sp_method := None |} img :: tr' /\
    Forall (fun ev => ~ is_save ev) tr /\ Forall (fun ev => ~ is_save ev) tr' /\
    im_mode img = M_RGB /\ im_size img = (1200, 630) /\
    encode JPEG Generator.og_save_params img = Encoded bs /\
    fs w' = <[out_path := bs]> (fs w) /\
    out_path = (dir ++ "public/cache-mcclure-og.jpg")%string /\
    (dir = "" \/ endswith_sep dir = true).
Proof.
  intros H.
  destruct (create_og_image_inv w w' H)
    as (fonts & tr & img & bs & Hf & Hns & Hc & Hw & He & ->).
  destruct (canvas_shape fonts img Hc) as [Hmode Hsize].
  destruct (output_path_under_public script_file) as (dir & Hdir & Hsep).
  exists tr, img, bs, (report_events out_path (Z.of_nat (length bs))), dir.
  cbn [fs trace]. repeat split; try done.
  unfold report_events. repeat constructor; simpl; tauto.
Qed.

(** C7.  When the fonts are selected, the strings drawn and the file
    written, the function returns, and what follows the save in the trace
    is the report: the path, the dimensions, the measuring of the file, its
    size in KB, and the warning if the size is above 300 KB (above 307200
    bytes), the all-clear otherwise.  The save is the only one, the file
    holds the encoding after the report, and the script exits with 0. *)
Theorem C7_report_after_write (w : world) (fonts : option font * option font)
    (tr : list event) (img : image) (bs : bytes) :
  select_fonts w = (Ok fonts, logged tr w) ->
  canvas_of fonts = Ok img ->
  can_write out_path = true ->
  encode JPEG Generator.og_save_params img = Encoded bs ->
  let size := Z.of_nat (length bs) in
  let kb := (inject_Z size / 1024)%Q in
  let verdict := if decide (300 * 1024 < size) then MsgWarning else MsgWithinLimits in
  let w' :=
    {| fs := <[out_path := bs]> (fs w);
       trace := trace w ++ tr
                  ++ [EvSave out_path JPEG Generator.og_save_params img;
                      EvPrint (MsgCreated out_path);
                      EvPrint (MsgDimensions 1200 630);
                      EvGetsize out_path;
                      EvPrint (MsgFileSize kb);
                      EvPrint verdict] |} in
  create_og_image w = (Ok tt, w') /\
  script true w = (w', 0) /\
  (verdict = MsgWarning <-> (300 < kb)%Q) /\
  Forall (fun ev => ~ is_save ev) tr.
Proof.
  intros Hf Hc Hw He size kb verdict w'.
  assert (Hrun : create_og_image w = (Ok tt, w'))
    by (by rewrite (create_og_image_Ok w fonts tr img bs Hf Hc Hw He)).
  split; [done|split; [|split]].
  - unfold Generator.script. cbn [negb]. by rewrite Hrun.
  - unfold verdict, kb. rewrite kb_threshold. by case_decide.
  - destruct (select_fonts_total w) as (fonts' & tr' & Hf' & Hns).
    rewrite Hf in Hf'. inversion Hf' as [[Hfonts Htr]].
    by apply app_inv_head in Htr as ->.
Qed.

(** C8.  The three font paths are tested in their order.  If none exists,
    both fonts are the built-in one.  Otherwise the first that exists is
    loaded at size 80 for the title and at size 40 for the subtitle and no
    later path is tested; if either load raises, both fonts are the
    built-in one. *)
Theorem C8_font_selection (w : world) :
  length Generator.font_paths = 3%nat /\
  (Forall (missing w) Generator.font_paths ->
   select_fonts w =
     (Ok (Some load_default, Some load_default),
      logged (EvExists <$> Generator.font_paths) w)) /\
  (forall pre p post bs,
     Generator.font_paths = pre ++ p :: post ->
     Forall (missing w) pre -> fs w !! p = Some bs ->
     let tested := EvExists <$> pre ++ [p] in
     select_fonts w =
       match truetype bs 80, truetype bs 40 with
       | Ok t, Ok s =>
           (Ok (Some t, Some s),
            logged (tested ++ [EvTruetype p 80; EvTruetype p 40]) w)
       | Ok _, Raise _ =>
           (Ok (Some load_default, Some load_default),
            logged (tested ++ [EvTruetype p 80; EvTruetype p 40]) w)
       | Raise _, _ =>
           (Ok (Some load_default, Some load_default),
            logged (tested ++ [EvTruetype p 80]) w)
       end).
Proof.
  split; [reflexivity|split].
  - apply select_fonts_none.
  - intros pre p post bs. apply select_fonts_found.
Qed.

End GeneratorFacts.

(** ** The generator on the sample machine *)

Lemma sample_fonts_selected :
  Generator.select_fonts nat sample_truetype 0%nat sample_machine
  = (Ok (Some 80%nat, Some 40%nat), logged sample_tested sample_machine).
Proof. reflexivity. Qed.

Lemma sample_canvas_drawn :
  canvas_of 0%nat sample_textbbox sample_render_text (Some 80%nat, Some 40%nat)
  = Ok sample_canvas.
Proof. reflexivity. Qed.

Lemma sample_run_returns :
  Generator.create_og_image nat sample_truetype 0%nat sample_textbbox
    sample_render_text sample_og_encode sample_can_write sample_script_file
    sample_machine
  = (Ok tt,
     {| fs := <[ "/site/public/cache-mcclure-og.jpg" := [Byte.xff; Byte.xd8] ]>
                (fs sample_machine);
        trace := sample_tested
                   ++ EvSave "/site/public/cache-mcclure-og.jpg" JPEG
                        Generator.og_save_params sample_canvas
                        :: report_events "/site/public/cache-mcclure-og.jpg" 2 |}).
Proof.
  exact (create_og_image_Ok nat sample_truetype 0%nat sample_textbbox
           sample_render_text sample_og_encode sample_can_write
           sample_script_file sample_machine (Some 80%nat, Some 40%nat)
           sample_tested sample_canvas [Byte.xff; Byte.xd8]
           sample_fonts_selected sample_canvas_drawn eq_refl eq_refl).
Qed.

Lemma sample_run_read_only :
  Generator.create_og_image nat sample_truetype 0%nat sample_textbbox
    sample_render_text sample_og_encode sample_read_only sample_script_file
    sample_machine
  = (Raise OSError,
     logged (sample_tested
               ++ [EvSave "/site/public/cache-mcclure-og.jpg" JPEG
                     Generator.og_save_params sample_canvas]) sample_machine).
Proof.
  rewrite create_og_image_unfold, sample_fonts_selected, sample_canvas_drawn.
  reflexivity.
Qed.

Lemma C1_witness :
  (Generator.script nat sample_truetype 0%nat sample_textbbox sample_render_text
     sample_og_encode sample_read_only sample_script_file true sample_machine).2
  = 1.
Proof.
  exact (f_equal snd
           (proj2 (C1_missing_pillow_gives_traceback nat sample_truetype 0%nat
                     sample_textbbox sample_render_text sample_og_encode
                     sample_read_only sample_script_file sample_machine)
                  OSError _ sample_run_read_only)).
Defined.

Lemma C2_witness :
  exists img, im_mode img = M_RGB /\ im_size img = (1200, 630).
Proof.
  destruct (C2_one_rgb_jpeg_saved nat sample_truetype 0%nat sample_textbbox
              sample_render_text sample_og_encode sample_can_write
              sample_script_file sample_machine _ sample_run_returns)
    as (tr & img & bs & tr' & dir & _ & _ & _ & Hmode & Hsize & _).
  exists img. split; [exact Hmode|exact Hsize].
Defined.

(** A run that returns, and whose one save does not ask for a progressive
    JPEG. *)
Lemma C2_save_not_progressive :
  let run := Generator.create_og_image nat sample_truetype 0%nat sample_textbbox
               sample_render_text sample_og_encode sample_can_write
               sample_script_file sample_machine in
  run.1 = Ok tt /\
  exists ps,
    trace run.2 !! 4%nat
      = Some (EvSave "/site/public/cache-mcclure-og.jpg" JPEG ps sample_canvas) /\
    sp_quality ps = Some 90 /\ sp_progressive ps = false.
Proof.
  cbv zeta. rewrite sample_run_returns. split; [done|].
  by exists Generator.og_save_params.
Qed.

Lemma C7_witness :
  (Generator.script nat sample_truetype 0%nat sample_textbbox sample_render_text
     sample_og_encode sample_can_write sample_script_file true sample_machine).2
  = 0.
Proof.
  destruct (C7_report_after_write nat sample_truetype 0%nat sample_textbbox
              sample_render_text sample_og_encode sample_can_write
              sample_script_file sample_machine (Some 80%nat, Some 40%nat)
              sample_tested sample_canvas [Byte.xff; Byte.xd8]
              sample_fonts_selected sample_canvas_drawn eq_refl eq_refl)
    as (_ & Hscript & _).
  exact (f_equal snd Hscript).
Defined.

Lemma C8_witness :
  (Generator.select_fonts nat sample_truetype 0%nat sample_machine).1
  = Ok (Some 80%nat, Some 40%nat).
Proof.
  destruct (C8_font_selection nat sample_truetype 0%nat sample_machine)
    as (_ & _ & Hfound).
  assert (Hpre : Forall (missing sample_machine)
                   ["/System/Library/Fonts/Supplemental/Arial Bold.ttf"])
    by (by constructor).
  exact (f_equal fst
           (Hfound ["/System/Library/Fonts/Supplemental/Arial Bold.ttf"]
              "/usr/share/fonts/truetype/dejavu/DejaVuSans-Bold.ttf"
              ["C:\Windows\Fonts\arialbd.ttf"] [Byte.x00]
              eq_refl Hpre eq_refl)).
Defined.

(** * Further properties of the optimizer *)

Section OptimizerMore.

Variable decode : bytes -> option image.
Variable encode : format -> save_params -> image -> save_outcome.
Variable can_write : string -> bool.

Local Abbreviation optimize_png := (Optimizer.optimize_png decode encode can_write).
Local Abbreviation optimize_jpg := (Optimizer.optimize_jpg decode encode can_write).
Local Abbreviation optimize_webp := (Optimizer.optimize_webp decode encode can_write).
Local Abbreviation loop_body := (Optimizer.loop_body decode encode can_write).
Local Abbreviation for_each := (Optimizer.for_each decode encode can_write).
Local Abbreviation main := (Optimizer.main decode encode can_write).
Local Abbreviation script := (Optimizer.script decode encode can_write).
Local Abbreviation reencode := (reencode decode encode can_write).
Local Abbreviation reencode_to := (reencode_to decode encode can_write).
Local Abbreviation entry_events := (entry_events decode).
Local Abbreviation decodable := (decodable decode).

(** ** Any output path *)

Lemma optimize_png_shape_to (p : string) (output_path : option string) (q : Z) :
  optimize_png p output_path q
  = reencode_to (fun img => img) PNG png_params p (default p output_path).
Proof. reflexivity. Qed.

Lemma optimize_jpg_shape_to (p : string) (output_path : option string) (q : Z) :
  optimize_jpg p output_path q
  = reencode_to Optimizer.jpg_flatten JPEG (jpeg_params q) p (default p output_path).
Proof. reflexivity. Qed.

Lemma optimize_webp_shape_to (p : string) (output_path : option string) (q : Z) :
  optimize_webp p output_path q
  = reencode_to (fun img => img) WEBP (webp_params q) p (default p output_path).
Proof. reflexivity. Qed.

Ltac run_to :=
  unfold reencode_to, print, emit, logged, os_path_getsize, Image_open,
    Image_save, true_div in *;
  unfold raise, mbind, M_bind, mret, M_ret in *;
  cbn [fs trace] in *.

Lemma reencode_to_Ok prep f ps p o w bs img bs' :
  fs w !! p = Some bs -> bs <> [] -> decode bs = Some img ->
  can_write o = true ->
  encode f ps (without_exif (prep img)) = Encoded bs' ->
  reencode_to prep f ps p o w =
    (Ok (Z.of_nat (length bs')),
     {| fs := <[o := bs']> (fs w);
        trace := trace w ++ copy_events p o f ps (without_exif (prep img))
                              (Z.of_nat (length bs)) (Z.of_nat (length bs')) |}).
Proof.
  intros Hp Hne Hd Hc He. run_to.
  rewrite Hp; cbn [fs trace]. rewrite Hp, Hd; cbn [fs trace].
  rewrite Hc, He; cbn [fs trace]. rewrite lookup_insert_eq.
  rewrite bool_decide_eq_false_2 by (by rewrite length_Z_zero).
  cbn [fs trace]. unfold copy_events. by flat_trace.
Qed.

Lemma reencode_to_missing prep f ps p o w :
  fs w !! p = None ->
  reencode_to prep f ps p o w =
    (Raise FileNotFoundError, logged [EvPrint (MsgOptimizing p); EvGetsize p] w).
Proof. intros Hp. run_to. rewrite Hp. by flat_trace. Qed.

Lemma reencode_to_undecodable prep f ps p o w bs :
  fs w !! p = Some bs -> decode bs = None ->
  reencode_to prep f ps p o w =
    (Raise UnidentifiedImageError, logged (open_events p) w).
Proof.
  intros Hp Hd. run_to. rewrite Hp; cbn [fs trace]. rewrite Hp, Hd.
  unfold open_events. by flat_trace.
Qed.

(** ** The loop *)

Lemma for_each_all_missing l st w :
  Forall (fun entry => missing w entry.1) l ->
  for_each l st w = (Ok st, logged (concat (skip_events <$> l)) w).
Proof.
  revert w. induction l as [|[p ft] l IH]; intros w Hl.
  { by rewrite logged_nil. }
  apply Forall_cons in Hl as [Hp Hl]. cbn [fst] in Hp. unfold missing in Hp.
  cbn [Optimizer.for_each]. unfold mbind, M_bind.
  rewrite loop_body_skip by done. rewrite IH by exact Hl.
  by rewrite logged_logged.
Qed.

Lemma saved_paths_app tr1 tr2 :
  saved_paths (tr1 ++ tr2) = saved_paths tr1 ++ saved_paths tr2.
Proof. apply omap_app. Qed.

Lemma saved_paths_entry before after entry :
  known_format entry -> decodable before entry ->
  saved_paths (entry_events before after entry) =
    match before !! entry.1 with
    | Some _ => [entry.1]
    | None => []
    end.
Proof.
  destruct entry as [p ft]. intros [[[f ps] prep] Hh] Hdec.
  unfold decodable in Hdec. cbn [fst snd] in *.
  unfold entry_events. rewrite Hh.
  destruct (before !! p) as [bs|]; [|done].
  by destruct (Hdec bs eq_refl) as [img ->].
Qed.

Lemma saved_paths_entries before after l :
  Forall known_format l -> Forall (decodable before) l ->
  saved_paths (concat (entry_events before after <$> l)) =
    (filter (fun entry => is_Some (before !! entry.1)) l).*1.
Proof.
  induction 1 as [|entry l Hk _ IH]; [done|]. intros Hdec.
  apply Forall_cons in Hdec as [Hd1 Hdec].
  rewrite fmap_cons. cbn [concat]. rewrite saved_paths_app, IH by done.
  rewrite saved_paths_entry by done. rewrite filter_cons.
  destruct (before !! entry.1) eqn:E.
  - rewrite decide_True by eauto. done.
  - rewrite decide_False by (by intros [? ?]). done.
Qed.

(** X1.  However [main] ends, the files after the run are the files before
    it: none is created, none is removed, and a file that is not one of the
    five of the worklist keeps its content. *)
Theorem X1_main_keeps_the_files (w : world) (r : result unit) (w' : world) :
  main w = (r, w') ->
  (forall q, is_Some (fs w' !! q) <-> is_Some (fs w !! q)) /\
  (forall q, q ∉ Optimizer.images_to_optimize.*1 -> fs w' !! q = fs w !! q).
Proof.
  intros H. rewrite main_unfold in H.
  destruct (for_each _ _ _) as [r1 w1] eqn:Hl.
  destruct (for_each_frame _ _ _ _ _ _ _ _ Hl) as (_ & Hoff & Hdom).
  by destruct r1 as [st|e]; inversion H; subst.
Qed.

(** X2.  When none of the five files exists, [main] looks for each, prints
    the five skip messages, a total of 0 and the line that all images were
    optimized, changes no file, and the script exits with status 0. *)
Theorem X2_nothing_to_optimize (w : world) :
  Forall (fun entry => missing w entry.1) Optimizer.images_to_optimize ->
  let w' :=
    logged (concat (skip_events <$> Optimizer.images_to_optimize)
              ++ [EvPrint (MsgTotal 0 (inject_Z 0 / 1024)%Q);
                  EvPrint MsgAllOptimized]) w in
  main w = (Ok tt, w') /\ script true w = (w', 0) /\ fs w' = fs w.
Proof.
  intros Hnone w'.
  assert (Hmain : main w = (Ok tt, w')).
  { rewrite main_unfold, for_each_all_missing by done.
    cbn [fst]. by rewrite logged_logged. }
  split; [done|split; [|done]].
  unfold Optimizer.script. by rewrite Hmain.
Qed.

(** X3.  In a run of [main] that reaches its end, the saves are one for
    each file that was present, to that file's own path, in the order of the
    worklist; a missing file is not saved to. *)
Theorem X3_one_save_per_present_file (w w' : world) :
  main w = (Ok tt, w') ->
  exists tr,
    trace w' = trace w ++ tr /\
    saved_paths tr =
      (filter (fun entry => is_Some (fs w !! entry.1))
              Optimizer.images_to_optimize).*1.
Proof.
  intros H. rewrite main_unfold in H.
  destruct (for_each _ _ _) as [[st|e] w1] eqn:Hl; [|done].
  inversion H; subst w'; clear H. unfold logged. cbn [fs trace].
  destruct (for_each_Ok _ _ _ _ images_NoDup images_known _ _ _ _ Hl)
    as (Htr & _ & Hdec).
  eexists. split; [by rewrite Htr, <- app_assoc|].
  rewrite saved_paths_app, saved_paths_entries by (apply images_known || done).
  cbn. by rewrite app_nil_r.
Qed.

(** X4.  A file that Pillow cannot decode is not written to: each of the
    three functions, for any output path, raises at the open, after the
    first line and the measuring of the input, and leaves every file as it
    was.  An input that does not exist makes them raise at the measuring. *)
Theorem X4_undecodable_input_untouched (p : string) (output_path : option string)
    (q : Z) (w : world) :
  (forall bs,
     fs w !! p = Some bs -> decode bs = None ->
     let failed := (Raise UnidentifiedImageError, logged (open_events p) w) in
     optimize_png p output_path q w = failed /\
     optimize_jpg p output_path q w = failed /\
     optimize_webp p output_path q w = failed) /\
  (fs w !! p = None ->
   let failed :=
     (Raise FileNotFoundError, logged [EvPrint (MsgOptimizing p); EvGetsize p] w) in
   optimize_png p output_path q w = failed /\
   optimize_jpg p output_path q w = failed /\
   optimize_webp p output_path q w = failed).
Proof.
  split.
  - intros bs Hp Hd failed.
    rewrite optimize_png_shape_to, optimize_jpg_shape_to, optimize_webp_shape_to.
    by rewrite !(reencode_to_undecodable _ _ _ _ _ _ bs).
  - intros Hp failed.
    rewrite optimize_png_shape_to, optimize_jpg_shape_to, optimize_webp_shape_to.
    by rewrite !reencode_to_missing.
Qed.

(** X5.  With an explicit output path each of the three functions writes
    the encoding there, measures the output for the new size and returns
    it, and reports against the size of the input; an input at another
    path keeps its content. *)
Theorem X5_explicit_output_path (p o : string) (q : Z) (w : world)
    (bs bs' : bytes) (img : image) :
  fs w !! p = Some bs -> bs <> [] -> decode bs = Some img ->
  can_write o = true ->
  let done_with f ps out :=
    (Ok (Z.of_nat (length bs')),
     {| fs := <[o := bs']> (fs w);
        trace := trace w ++ copy_events p o f ps out (Z.of_nat (length bs))
                              (Z.of_nat (length bs')) |}) in
  (encode PNG png_params (without_exif img) = Encoded bs' ->
   optimize_png p (Some o) q w = done_with PNG png_params (without_exif img)) /\
  (encode JPEG (jpeg_params q) (without_exif (Optimizer.jpg_flatten img)) = Encoded bs' ->
   optimize_jpg p (Some o) q w =
     done_with JPEG (jpeg_params q) (without_exif (Optimizer.jpg_flatten img))) /\
  (encode WEBP (webp_params q) (without_exif img) = Encoded bs' ->
   optimize_webp p (Some o) q w = done_with WEBP (webp_params q) (without_exif img)) /\
  (o <> p -> <[o := bs']> (fs w) !! p = Some bs).
Proof.
  intros Hp Hne Hd Hc done_with.
  split; [|split; [|split]].
  - intros He. rewrite optimize_png_shape_to.
    by rewrite (reencode_to_Ok _ _ _ _ _ _ bs img bs').
  - intros He. rewrite optimize_jpg_shape_to.
    by rewrite (reencode_to_Ok _ _ _ _ _ _ bs img bs').
  - intros He. rewrite optimize_webp_shape_to.
    by rewrite (reencode_to_Ok _ _ _ _ _ _ bs img bs').
  - intros Hop. by rewrite lookup_insert_ne.
Qed.

End OptimizerMore.

(** ** What reaches the encoder *)

Lemma DIV255_mono (a b : Z) : a <= b -> DIV255 a <= DIV255 b.
Proof.
  intros Hab. unfold DIV255. rewrite !Z.shiftr_div_pow2 by lia.
  change (2 ^ 8) with 256. apply Z.div_le_mono; [lia|].
  assert ((a + 128) / 256 <= (b + 128) / 256) by (apply Z.div_le_mono; lia).
  lia.
Qed.

(** A blend with white lies between the source value and 255. *)
Lemma BLEND8_white_between (a i : Z) :
  0 <= a <= 255 -> 0 <= i <= 255 ->
  i <= BLEND8 a 255 i <= 255.
Proof.
  intros Ha Hi. unfold BLEND8. split.
  - rewrite <- (DIV255_exact i) at 1 by done. apply DIV255_mono. nia.
  - change 255 with (DIV255 (255 * 255)) at 3. apply DIV255_mono. nia.
Qed.

(** X6.  Rebuilding an image from its pixel data twice gives what
    rebuilding it once gives. *)
Theorem X6_without_exif_idempotent (img : image) :
  without_exif (without_exif img) = without_exif img.
Proof.
  apply without_exif_only_pixels;
    [apply without_exif_mode|apply without_exif_size|apply without_exif_getdata].
Qed.

(** X8.  In the JPEG path, a pixel of an RGBA, LA or P source whose alpha
    is 255 reaches the encoder with the colour it has in the source (for a
    palettised source, the colour of its palette entry). *)
Theorem X8_opaque_pixels_kept (img : image) (x y : Z) :
  im_mode img ∈ [M_RGBA; M_LA; M_P] ->
  in_bounds (im_width img) (im_height img) x y = true ->
  alpha_band (alpha_source img) x y = 255 ->
  let i := im_px (alpha_source img) x y in
  0 <= band0 i <= 255 -> 0 <= band1 i <= 255 -> 0 <= band2 i <= 255 ->
  im_px (without_exif (Optimizer.jpg_flatten img)) x y
    = Pixel (band0 i) (band1 i) (band2 i) 255.
Proof.
  intros Hm Hb Ha i H0 H1 H2.
  pose proof (jpg_flatten_size img) as Hs. unfold im_size in Hs.
  injection Hs as Hw Hh.
  rewrite without_exif_px by (by rewrite Hw, Hh).
  rewrite (jpg_flatten_opaque img x y Hm Hb Ha H0 H1 H2). fold i.
  rewrite jpg_flatten_paste by done. reflexivity.
Qed.

(** X9.  In the JPEG path, every colour band of a pixel of an RGBA, LA or
    P source reaches the encoder at a value between its source value and
    255: flattening onto white never darkens a pixel and never leaves the
    range of a byte. *)
Theorem X9_flattening_only_lightens (img : image) (x y : Z) :
  im_mode img ∈ [M_RGBA; M_LA; M_P] ->
  in_bounds (im_width img) (im_height img) x y = true ->
  let i := im_px (alpha_source img) x y in
  0 <= band3 i <= 255 ->
  0 <= band0 i <= 255 -> 0 <= band1 i <= 255 -> 0 <= band2 i <= 255 ->
  let o := im_px (without_exif (Optimizer.jpg_flatten img)) x y in
  band0 i <= band0 o <= 255 /\ band1 i <= band1 o <= 255 /\
  band2 i <= band2 o <= 255.
Proof.
  intros Hm Hb i Ha H0 H1 H2 o.
  pose proof (jpg_flatten_size img) as Hs. unfold im_size in Hs.
  injection Hs as Hw Hh.
  assert (Ho : o = Pixel (BLEND8 (band3 i) 255 (band0 i))
                         (BLEND8 (band3 i) 255 (band1 i))
                         (BLEND8 (band3 i) 255 (band2 i)) 255).
  { unfold o. rewrite without_exif_px by (by rewrite Hw, Hh).
    rewrite jpg_flatten_paste by done.
    pose proof (alpha_source_size img) as Hs'. unfold im_size in Hs'.
    injection Hs' as Hw' Hh'.
    unfold paste. cbn [im_px im_mode im_width im_height Image_new fst snd im_size].
    rewrite Hw', Hh', Hb. cbn [andb]. fold i. reflexivity. }
  rewrite Ho. cbn [band0 band1 band2].
  repeat split; by apply BLEND8_white_between.
Qed.

Section EncoderInput.

Variable decode : bytes -> option image.
Variable encode : format -> save_params -> image -> save_outcome.
Variable can_write : string -> bool.

Local Abbreviation optimize_png := (Optimizer.optimize_png decode encode can_write).
Local Abbreviation optimize_webp := (Optimizer.optimize_webp decode encode can_write).
Local Abbreviation reencode := (reencode decode encode can_write).

Lemma reencode_same_pixels f ps p w1 w2 bs1 bs2 img1 img2 n1 n2 w1' w2' :
  fs w1 !! p = Some bs1 -> fs w2 !! p = Some bs2 ->
  decode bs1 = Some img1 -> decode bs2 = Some img2 ->
  without_exif img1 = without_exif img2 ->
  reencode (fun img => img) f ps p w1 = (Ok n1, w1') ->
  reencode (fun img => img) f ps p w2 = (Ok n2, w2') ->
  n1 = n2 /\ fs w1' !! p = fs w2' !! p.
Proof.
  intros Hp1 Hp2 Hd1 Hd2 Heq H1 H2.
  apply reencode_inv in H1 as (b1 & i1 & o1 & Hb1 & _ & Hi1 & _ & He1 & -> & ->).
  apply reencode_inv in H2 as (b2 & i2 & o2 & Hb2 & _ & Hi2 & _ & He2 & -> & ->).
  assert (b1 = bs1) as -> by congruence. assert (b2 = bs2) as -> by congruence.
  assert (i1 = img1) as -> by congruence. assert (i2 = img2) as -> by congruence.
  rewrite Heq in He1. assert (o1 = o2) as -> by congruence.
  cbn [fs]. by rewrite !lookup_insert_eq.
Qed.

(** X7.  What [optimize_png] and [optimize_webp] write depends on the
    decoded source through its mode, size and pixel data only: for two
    sources that agree on these (whatever their palettes and metadata), two
    runs that return write the same bytes and return the same size. *)
Theorem X7_only_pixels_reach_the_file (p : string) (q : Z) (w1 w2 : world)
    (bs1 bs2 : bytes) (img1 img2 : image) :
  fs w1 !! p = Some bs1 -> fs w2 !! p = Some bs2 ->
  decode bs1 = Some img1 -> decode bs2 = Some img2 ->
  im_mode img1 = im_mode img2 -> im_size img1 = im_size img2 ->
  getdata img1 = getdata img2 ->
  (forall n1 n2 w1' w2',
     optimize_png p None q w1 = (Ok n1, w1') ->
     optimize_png p None q w2 = (Ok n2, w2') ->
     n1 = n2 /\ fs w1' !! p = fs w2' !! p) /\
  (forall n1 n2 w1' w2',
     optimize_webp p None q w1 = (Ok n1, w1') ->
     optimize_webp p None q w2 = (Ok n2, w2') ->
     n1 = n2 /\ fs w1' !! p = fs w2' !! p).
Proof.
  intros Hp1 Hp2 Hd1 Hd2 Hm Hs Hg.
  assert (Heq : without_exif img1 = without_exif img2)
    by (by apply without_exif_only_pixels).
  split; intros n1 n2 w1' w2' H1 H2.
  - rewrite optimize_png_shape in H1, H2.
    exact (reencode_same_pixels _ _ _ _ _ _ _ _ _ _ _ _ _ Hp1 Hp2 Hd1 Hd2 Heq H1 H2).
  - rewrite optimize_webp_shape in H1, H2.
    exact (reencode_same_pixels _ _ _ _ _ _ _ _ _ _ _ _ _ Hp1 Hp2 Hd1 Hd2 Heq H1 H2).
Qed.

End EncoderInput.

(** ** The further properties on the sample files *)

Lemma X1_witness :
  fs (Optimizer.main sample_decode sample_encode sample_can_write sample_world).2
    !! "README.md" = fs sample_world !! "README.md".
Proof.
  destruct (X1_main_keeps_the_files sample_decode sample_encode sample_can_write
              sample_world _ _ (surjective_pairing _)) as [_ Hoff].
  apply Hoff. apply (proj1 (bool_decide_eq_true _)). vm_compute. reflexivity.
Defined.

Lemma X2_witness :
  (Optimizer.script sample_decode sample_encode sample_can_write true
     {| fs := ∅; trace := [] |}).2 = 0.
Proof.
  assert (Hnone : Forall (fun entry => missing {| fs := ∅; trace := [] |} entry.1)
                    Optimizer.images_to_optimize)
    by (repeat constructor).
  destruct (X2_nothing_to_optimize sample_decode sample_encode sample_can_write
              _ Hnone) as (_ & Hscript & _).
  exact (f_equal snd Hscript).
Defined.

Lemma X3_witness :
  exists tr,
    saved_paths tr
    = ["public/covers/fracture-engine.png"; "public/cache-mcclure-og.jpg"].
Proof.
  pose (w' := (Optimizer.main sample_decode sample_encode sample_can_write
                 sample_world).2).
  assert (H : Optimizer.main sample_decode sample_encode sample_can_write
                sample_world = (Ok tt, w')) by (vm_compute; reflexivity).
  destruct (X3_one_save_per_present_file _ _ _ _ _ H) as (tr & _ & Hsaved).
  exists tr. exact Hsaved.
Defined.

Lemma X4_witness :
  Optimizer.optimize_webp sample_decode sample_encode sample_can_write
    "public/covers/fracture-engine.webp" None 90 sample_world_broken
  = (Raise UnidentifiedImageError,
     logged (open_events "public/covers/fracture-engine.webp") sample_world_broken).
Proof.
  destruct (X4_undecodable_input_untouched sample_decode sample_encode
              sample_can_write "public/covers/fracture-engine.webp" None 90
              sample_world_broken) as [Hbad _].
  destruct (Hbad [Byte.x00] eq_refl eq_refl) as (_ & _ & Hwebp).
  exact Hwebp.
Defined.

Lemma X5_witness :
  <[ "optimized.png" := [Byte.x02] ]> (fs sample_world)
    !! "public/covers/fracture-engine.png" = Some [Byte.x02; Byte.x00].
Proof.
  assert (Hne : [Byte.x02; Byte.x00] <> []) by discriminate.
  destruct (X5_explicit_output_path sample_decode sample_encode sample_can_write
              "public/covers/fracture-engine.png" "optimized.png" 85 sample_world
              [Byte.x02; Byte.x00] [Byte.x02] sample_rgb eq_refl Hne eq_refl eq_refl)
    as (_ & _ & _ & Hkept).
  apply Hkept. discriminate.
Defined.

Lemma sample_run_red :
  Optimizer.optimize_png sample_decode_p sample_encode_raw sample_can_write
    "public/covers/fracture-engine.png" None 85 sample_world_red
  = (Ok 1,
     {| fs := <[ "public/covers/fracture-engine.png" := [Byte.x00] ]>
                (fs sample_world_red);
        trace := run_events "public/covers/fracture-engine.png" PNG png_params
                   (without_exif sample_p_red) 1 1 |}).
Proof.
  rewrite optimize_png_shape.
  by rewrite (reencode_Ok _ _ _ _ _ _ _ _ [Byte.x03] sample_p_red [Byte.x00]).
Qed.

Lemma sample_run_blue :
  Optimizer.optimize_png sample_decode_p sample_encode_raw sample_can_write
    "public/covers/fracture-engine.png" None 85 sample_world_blue
  = (Ok 1,
     {| fs := <[ "public/covers/fracture-engine.png" := [Byte.x00] ]>
                (fs sample_world_blue);
        trace := run_events "public/covers/fracture-engine.png" PNG png_params
                   (without_exif sample_p_blue) 1 1 |}).
Proof.
  rewrite optimize_png_shape.
  by rewrite (reencode_Ok _ _ _ _ _ _ _ _ [Byte.x04] sample_p_blue [Byte.x00]).
Qed.

Lemma X7_witness :
  fs (Optimizer.optimize_png sample_decode_p sample_encode_raw sample_can_write
        "public/covers/fracture-engine.png" None 85 sample_world_red).2
    !! "public/covers/fracture-engine.png"
  = fs (Optimizer.optimize_png sample_decode_p sample_encode_raw sample_can_write
          "public/covers/fracture-engine.png" None 85 sample_world_blue).2
      !! "public/covers/fracture-engine.png".
Proof.
  destruct (X7_only_pixels_reach_the_file sample_decode_p sample_encode_raw
              sample_can_write "public/covers/fracture-engine.png" 85
              sample_world_red sample_world_blue [Byte.x03] [Byte.x04]
              sample_p_red sample_p_blue
              eq_refl eq_refl eq_refl eq_refl eq_refl eq_refl eq_refl)
    as [Hpng _].
  rewrite sample_run_red, sample_run_blue.
  exact (proj2 (Hpng _ _ _ _ sample_run_red sample_run_blue)).
Defined.

Lemma X8_witness :
  im_px (without_exif (Optimizer.jpg_flatten sample_rgba)) 1 0
  = Pixel 200 100 50 255.
Proof.
  assert (Hm : im_mode sample_rgba ∈ [M_RGBA; M_LA; M_P])
    by (apply elem_of_cons; by left).
  apply (X8_opaque_pixels_kept sample_rgba 1 0 Hm eq_refl eq_refl);
    simpl; lia.
Defined.

Lemma X9_witness :
  10 <= band0 (im_px (without_exif (Optimizer.jpg_flatten sample_rgba)) 0 0) <= 255.
Proof.
  assert (Hm : im_mode sample_rgba ∈ [M_RGBA; M_LA; M_P])
    by (apply elem_of_cons; by left).
  apply (X9_flattening_only_lightens sample_rgba 0 0 Hm eq_refl);
    simpl; lia.
Defined.

(** * Further properties of the generator *)

(** ** [os.path.dirname] on paths with a last component *)

Lemma list_ascii_app (a b : string) :
  list_ascii_of_string (a ++ b)%string
  = list_ascii_of_string a ++ list_ascii_of_string b.
Proof.
  induction a as [|c a IH]; [done|].
  rewrite string_append_cons. cbn [list_ascii_of_string app]. by rewrite IH.
Qed.

Lemma upto_last_sep_free (f : list ascii) :
  Forall (fun c => is_sep c = false) f -> upto_last_sep f = [].
Proof.
  induction 1 as [|c f Hc _ IH]; [done|].
  cbn [upto_last_sep]. by rewrite IH, Hc.
Qed.

Lemma upto_last_sep_app (a f : list ascii) :
  Forall (fun c => is_sep c = false) f ->
  upto_last_sep (a ++ "/"%char :: f) = a ++ ["/"%char].
Proof.
  intros Hf. induction a as [|c a IH].
  - cbn [app upto_last_sep]. by rewrite upto_last_sep_free.
  - cbn [app upto_last_sep]. rewrite IH. by destruct a.
Qed.

Lemma rstrip_sep_snoc (b : list ascii) (c : ascii) :
  is_sep c = false -> rstrip_sep (b ++ [c]) = b ++ [c].
Proof.
  intros Hc. induction b as [|x b IH].
  - cbn [app rstrip_sep]. by rewrite Hc.
  - cbn [app rstrip_sep]. rewrite IH. by destruct b.
Qed.

Lemma rstrip_sep_app_sep (a : list ascii) :
  rstrip_sep (a ++ ["/"%char]) = rstrip_sep a.
Proof.
  induction a as [|x a IH]; [done|].
  cbn [app rstrip_sep]. by rewrite IH.
Qed.

(** A non-empty string that does not end with a separator ends with
    another character. *)
Lemma last_char (s : string) :
  s <> "" -> endswith_sep s = false ->
  exists b c, list_ascii_of_string s = b ++ [c] /\ is_sep c = false.
Proof.
  induction s as [|x s IH]; [done|]. intros _ Hs.
  destruct s as [|y s].
  - exists [], x. by split.
  - destruct IH as (b & c & Hb & Hc); [done|exact Hs|].
    exists (x :: b), c. split; [|done].
    cbn [list_ascii_of_string app] in *. by rewrite Hb.
Qed.

Lemma sep_free_endswith (s : string) : sep_free s -> endswith_sep s = false.
Proof.
  unfold sep_free. induction s as [|x s IH]; [done|].
  cbn [list_ascii_of_string]. intros H. apply Forall_cons in H as [Hx Hs].
  destruct s; [exact Hx|]. by apply IH.
Qed.

(** The directory of [a/f], for [a] not ending with a separator and [f]
    without one, is [a]. *)
Lemma dirname_of_child (a f : string) :
  a <> "" -> endswith_sep a = false -> sep_free f ->
  os_path_dirname (a ++ "/" ++ f)%string = a.
Proof.
  intros Ha Hs Hf. destruct (last_char a Ha Hs) as (b & c & Hb & Hc).
  unfold os_path_dirname. rewrite !list_ascii_app, Hb.
  change (list_ascii_of_string "/") with ["/"%char].
  change (["/"%char] ++ list_ascii_of_string f)
    with ("/"%char :: list_ascii_of_string f).
  rewrite (upto_last_sep_app (b ++ [c]) _ Hf).
  rewrite forallb_app, forallb_app. cbn [forallb]. rewrite Hc, andb_false_r.
  cbn [andb]. rewrite rstrip_sep_app_sep, rstrip_sep_snoc by done.
  by rewrite <- Hb, string_of_list_ascii_of_string.
Qed.

(** A path without a separator has the empty directory. *)
Lemma dirname_of_name (f : string) : sep_free f -> os_path_dirname f = "".
Proof.
  intros Hf. unfold os_path_dirname. by rewrite upto_last_sep_free.
Qed.

(** X14.  For a script at [root/d/f] (with [d] and [f] free of separators
    and [root] not ending with one) the image goes to
    [root/public/cache-mcclure-og.jpg], beside the directory of the script.
    For a relative [d/f], and for a bare file name [f], it goes to
    [public/cache-mcclure-og.jpg] under the working directory. *)
Theorem X14_output_path_beside_scripts (d f : string) :
  sep_free d -> d <> "" -> sep_free f ->
  Generator.output_path f = "public/cache-mcclure-og.jpg" /\
  Generator.output_path (d ++ "/" ++ f)%string = "public/cache-mcclure-og.jpg" /\
  forall root,
    root <> "" -> endswith_sep root = false ->
    Generator.output_path (root ++ "/" ++ d ++ "/" ++ f)%string
    = (root ++ "/public/cache-mcclure-og.jpg")%string.
Proof.
  intros Hd Hne Hf.
  assert (Hds : endswith_sep d = false) by (by apply sep_free_endswith).
  split; [|split].
  - unfold Generator.output_path. by rewrite (dirname_of_name f).
  - unfold Generator.output_path.
    by rewrite (dirname_of_child d f), (dirname_of_name d).
  - intros root Hr Hrs. unfold Generator.output_path.
    replace (root ++ "/" ++ d ++ "/" ++ f)%string
      with ((root ++ "/" ++ d) ++ "/" ++ f)%string
      by (by rewrite !string_app_assoc).
    rewrite (dirname_of_child (root ++ "/" ++ d) f); [| | |done].
    + rewrite (dirname_of_child root d) by done.
      unfold os_path_join. cbn [fold_left].
      rewrite (join_step_after_name root "public") by done.
      rewrite join_step_after_name.
      * by rewrite !string_app_assoc.
      * reflexivity.
      * destruct root; discriminate.
      * by rewrite endswith_sep_app.
    + destruct root; discriminate.
    + rewrite endswith_sep_app by done.
      rewrite string_append_cons. cbn [endswith_sep]. by destruct d.
Qed.

Lemma X14_witness :
  Generator.output_path "/site/scripts/generate-og-image.py"
  = "/site/public/cache-mcclure-og.jpg".
Proof.
  assert (Hd : sep_free "scripts") by (repeat constructor).
  assert (Hf : sep_free "generate-og-image.py") by (repeat constructor).
  assert (Hne : "scripts" <> "") by discriminate.
  assert (Hr : "/site" <> "") by discriminate.
  destruct (X14_output_path_beside_scripts "scripts" "generate-og-image.py"
              Hd Hne Hf) as (_ & _ & Hroot).
  exact (Hroot "/site" Hr eq_refl).
Defined.

(** ** The decoration *)

Lemma rectangles_px (boxes : list (Z * Z * Z * Z)) (c : Z * Z * Z)
    (img : image) (x y : Z) :
  let drawn := fold_left (fun im box => Generator.rectangle box c im) boxes img in
  im_mode drawn = im_mode img /\ im_size drawn = im_size img /\
  im_px drawn x y =
    if in_bounds (im_width img) (im_height img) x y && existsb (in_box x y) boxes
    then Generator.ink c else im_px img x y.
Proof.
  revert img. induction boxes as [|[[[x0 y0] x1] y1] boxes IH]; intros img.
  { cbn [fold_left existsb]. by rewrite andb_false_r. }
  cbn [fold_left]. destruct (IH (Generator.rectangle (x0, y0, x1, y1) c img))
    as (Hm & Hs & Hpx).
  cbv zeta. rewrite Hm, Hs, Hpx. split; [done|split; [done|]].
  cbn [Generator.rectangle im_width im_height im_px existsb in_box].
  destruct (in_bounds _ _ x y), (existsb _ boxes),
    (bool_decide (x0 <= x <= x1)), (bool_decide (y0 <= y <= y1)); done.
Qed.

(** X13.  The decoration paints the ten boxes of [decoration_boxes] in the
    accent colour, clipped to the image, and nothing else: any other pixel,
    and the mode and the size, are as before.  In particular no row between
    the two lines (rows 200 to 434, where the two strings start) is
    touched. *)
Theorem X13_decoration_is_ten_boxes (img : image) (x y : Z) :
  im_mode (Generator.decorate img) = im_mode img /\
  im_size (Generator.decorate img) = im_size img /\
  im_px (Generator.decorate img) x y =
    (if in_bounds (im_width img) (im_height img) x y
        && existsb (in_box x y) decoration_boxes
     then Generator.ink Generator.ACCENT_COLOR else im_px img x y) /\
  (199 < y < 435 -> im_px (Generator.decorate img) x y = im_px img x y).
Proof.
  change (Generator.decorate img)
    with (fold_left (fun im box => Generator.rectangle box Generator.ACCENT_COLOR im)
            decoration_boxes img).
  destruct (rectangles_px decoration_boxes Generator.ACCENT_COLOR img x y)
    as (Hm & Hs & Hpx).
  split; [done|split; [done|split; [done|]]].
  intros Hy. rewrite Hpx.
  replace (existsb (in_box x y) decoration_boxes) with false;
    [by rewrite andb_false_r|].
  symmetry. unfold decoration_boxes. cbn [existsb in_box].
  rewrite !(bool_decide_eq_false_2 (_ <= y <= _)) by lia.
  by rewrite !andb_false_r.
Qed.

Lemma X13_witness :
  im_px (Generator.decorate
           (Image_new M_RGB (1200, 630) (Generator.ink Generator.BACKGROUND_COLOR)))
        600 300
  = Generator.ink Generator.BACKGROUND_COLOR.
Proof.
  destruct (X13_decoration_is_ten_boxes
              (Image_new M_RGB (1200, 630) (Generator.ink Generator.BACKGROUND_COLOR))
              600 300) as (_ & _ & _ & Hband).
  apply Hband. lia.
Defined.

Section GeneratorMore.

Variable font : Type.
Variable truetype : bytes -> Z -> result font.
Variable load_default : font.
Variable textbbox : font -> string -> result (Z * Z * Z * Z).
Variable render_text :
  font -> string -> Z * Z -> Z * Z * Z -> image -> result (Z -> Z -> pixel).
Variable encode : format -> save_params -> image -> save_outcome.
Variable can_write : string -> bool.
Variable script_file : string.

Local Abbreviation select_fonts := (Generator.select_fonts font truetype load_default).
Local Abbreviation draw_strings :=
  (Generator.draw_strings font load_default textbbox render_text).
Local Abbreviation create_og_image :=
  (Generator.create_og_image font truetype load_default textbbox render_text
     encode can_write script_file).
Local Abbreviation script :=
  (Generator.script font truetype load_default textbbox render_text
     encode can_write script_file).
Local Abbreviation canvas_of := (canvas_of load_default textbbox render_text).
Local Abbreviation out_path := (Generator.output_path script_file).
Local Abbreviation font_or_default := (Generator.font_or_default font load_default).
Local Abbreviation fonts_total :=
  (select_fonts_total font truetype load_default textbbox render_text
     can_write script_file).
Local Abbreviation tests_no_save :=
  (exists_events_no_save font load_default textbbox render_text can_write
     script_file).

Lemma logged_inj (a b : list event) (w : world) :
  logged a w = logged b w -> a = b.
Proof.
  unfold logged. intros H. injection H as H. by apply app_inv_head in H.
Qed.

(** The font selection prints nothing. *)
Lemma fonts_print_nothing w fonts tr :
  select_fonts w = (Ok fonts, logged tr w) ->
  Forall (fun ev => forall m, ev <> EvPrint m) tr.
Proof.
  intros Hf.
  assert (Htests : forall paths : list string,
             Forall (fun ev => forall m, ev <> EvPrint m) (EvExists <$> paths)).
  { intros paths. apply Forall_fmap, Forall_forall. by intros. }
  destruct (first_existing w Generator.font_paths)
    as [Hnone|(pre & p & post & bs & Hsplit & Hpre & Hp)].
  - rewrite (select_fonts_none font truetype load_default w Hnone) in Hf.
    apply (f_equal snd) in Hf. cbn [snd] in Hf.
    apply logged_inj in Hf as <-. apply Htests.
  - rewrite (select_fonts_found font truetype load_default w pre p post bs
               Hsplit Hpre Hp) in Hf.
    destruct (truetype bs 80) as [t|e1]; [destruct (truetype bs 40) as [s|e2]|];
      apply (f_equal snd) in Hf; cbn [snd] in Hf;
      apply logged_inj in Hf as <-;
      (apply Forall_app; split; [apply Htests|by repeat constructor]).
Qed.

(** The ways a run of [create_og_image] can end. *)
Lemma create_og_image_cases w r w' :
  create_og_image w = (r, w') ->
  exists fonts tr,
    select_fonts w = (Ok fonts, logged tr w) /\
    Forall (fun ev => ~ is_save ev) tr /\
    ((exists e, canvas_of fonts = Raise e /\ r = Raise e /\ w' = logged tr w) \/
     (exists img,
        canvas_of fonts = Ok img /\
        let saved := EvSave out_path JPEG Generator.og_save_params img in
        ((can_write out_path = false /\ r = Raise OSError /\
          w' = logged (tr ++ [saved]) w) \/
         (exists e written,
            encode JPEG Generator.og_save_params img = EncodeError e written /\
            r = Raise e /\
            w' = {| fs := match fs w !! out_path with
                          | Some _ => <[out_path := written]> (fs w)
                          | None => fs w
                          end;
                    trace := trace w ++ tr ++ [saved] |}) \/
         (exists bs,
            encode JPEG Generator.og_save_params img = Encoded bs /\
            r = Ok tt /\
            w' = {| fs := <[out_path := bs]> (fs w);
                    trace := trace w ++ tr
                               ++ saved :: report_events out_path
                                             (Z.of_nat (length bs)) |})))).
Proof.
  intros H.
  destruct (fonts_total w)
    as (fonts & tr & Hf & Hns).
  exists fonts, tr. split; [done|split; [done|]].
  rewrite create_og_image_unfold, Hf in H.
  destruct (canvas_of fonts) as [img|e] eqn:Hc.
  2:{ left. exists e. by inversion H. }
  right. exists img. split; [done|]. cbv zeta.
  destruct (can_write out_path) eqn:Hw.
  2:{ left. unfold Image_save in H. rewrite Hw in H. inversion H; subst.
      unfold logged. cbn [fs trace]. by rewrite app_assoc. }
  right.
  destruct (encode JPEG Generator.og_save_params img) as [bs|e wr] eqn:He.
  - right. exists bs. split; [done|].
    unfold Image_save in H. rewrite Hw, He in H.
    rewrite (report_spec _ _ bs) in H by (cbn [fs]; apply lookup_insert_eq).
    inversion H; subst. unfold logged. cbn [fs trace]. by rewrite <- !app_assoc.
  - left. exists e, wr. split; [done|].
    unfold Image_save in H. rewrite Hw, He in H. inversion H; subst.
    unfold logged. cbn [fs trace]. by rewrite <- !app_assoc.
Qed.

(** X10.  However [create_og_image] ends, no file other than the output
    file is created, changed or removed; the font files in particular are
    only read. *)
Theorem X10_generator_writes_one_file (w : world) (r : result unit) (w' : world)
    (q : string) :
  create_og_image w = (r, w') -> q <> out_path -> fs w' !! q = fs w !! q.
Proof.
  intros H Hq.
  destruct (create_og_image_cases w r w' H)
    as (fonts & tr & _ & _ &
        [(e & _ & _ & ->)|(img & _ &
           [(_ & _ & ->)|[(e & wr & _ & _ & ->)|(bs & _ & _ & ->)]])]);
    unfold logged; cbn [fs]; try done.
  - destruct (fs w !! out_path); [by rewrite lookup_insert_ne|done].
  - by rewrite lookup_insert_ne.
Qed.

(** X16.  A run of [create_og_image] that raises has printed nothing: the
    line that the image was created, and the report after it, appear only
    in a run that returns.  Run as a script, such a run ends with status 1
    and a run that returns ends with status 0. *)
Theorem X16_failing_run_prints_nothing (w : world) (r : result unit) (w' : world) :
  create_og_image w = (r, w') ->
  (forall e, r = Raise e ->
     (script true w).2 = 1 /\
     exists tr, trace w' = trace w ++ tr /\
                Forall (fun ev => forall m, ev <> EvPrint m) tr) /\
  (r = Ok tt -> (script true w).2 = 0 /\
                EvPrint (MsgCreated out_path) ∈ trace w').
Proof.
  intros H. split.
  - intros e ->. split.
    { unfold Generator.script. cbn [negb]. rewrite H. by destruct (is_ImportError e). }
    destruct (create_og_image_cases w _ w' H)
      as (fonts & tr & Hf & _ &
          [(e1 & _ & _ & ->)|(img & _ &
             [(_ & _ & ->)|[(e1 & wr & _ & _ & ->)|(bs & _ & Hr & _)]])]);
      try done;
      pose proof (fonts_print_nothing w fonts tr Hf) as Hquiet;
      unfold logged; cbn [trace].
    + by exists tr.
    + exists (tr ++ [EvSave out_path JPEG Generator.og_save_params img]).
      split; [done|]. apply Forall_app. split; [done|by repeat constructor].
    + exists (tr ++ [EvSave out_path JPEG Generator.og_save_params img]).
      split; [done|]. apply Forall_app. split; [done|by repeat constructor].
  - intros ->. split.
    { unfold Generator.script. cbn [negb]. by rewrite H. }
    destruct (create_og_image_inv font truetype load_default textbbox render_text
                encode can_write script_file w w' H)
      as (fonts & tr & img & bs & _ & _ & _ & _ & _ & ->).
    cbn [trace]. rewrite !elem_of_app. right. right.
    unfold report_events. rewrite !elem_of_cons. tauto.
Qed.

(** X11.  The font selection never raises and saves nothing, and the two
    fonts it returns are never mixed: either both are the built-in font, or
    both were loaded, at sizes 80 and 40, from one and the same existing
    file of the list. *)
Theorem X11_fonts_never_mixed (w : world) :
  exists tr,
    Forall (fun ev => ~ is_save ev) tr /\
    (select_fonts w
       = (Ok (Some load_default, Some load_default), logged tr w) \/
     exists p bs t s,
       p ∈ Generator.font_paths /\ fs w !! p = Some bs /\
       truetype bs 80 = Ok t /\ truetype bs 40 = Ok s /\
       select_fonts w = (Ok (Some t, Some s), logged tr w)).
Proof.
  destruct (first_existing w Generator.font_paths)
    as [Hnone|(pre & p & post & bs & Hsplit & Hpre & Hp)].
  - eexists. split; [apply tests_no_save|]. left.
    by apply select_fonts_none.
  - rewrite (select_fonts_found font truetype load_default w pre p post bs
               Hsplit Hpre Hp).
    assert (Hin : p ∈ Generator.font_paths).
    { rewrite Hsplit, elem_of_app, elem_of_cons. auto. }
    assert (Hload : forall evs : list event,
               Forall (fun ev => ~ is_save ev) evs ->
               Forall (fun ev => ~ is_save ev) ((EvExists <$> pre ++ [p]) ++ evs)).
    { intros evs Hevs. apply Forall_app. split; [apply tests_no_save|done]. }
    destruct (truetype bs 80) as [t|e] eqn:Ht;
      [destruct (truetype bs 40) as [s|e] eqn:Hs|].
    + eexists. split; [|right; by exists p, bs, t, s].
      apply Hload. repeat constructor; simpl; tauto.
    + eexists. split; [|by left].
      apply Hload. repeat constructor; simpl; tauto.
    + eexists. split; [|by left].
      apply Hload. repeat constructor; simpl; tauto.
Qed.

End GeneratorMore.

(** ** The further properties on the sample machine *)

Lemma X10_witness :
  fs (Generator.create_og_image nat sample_truetype 0%nat sample_textbbox
        sample_render_text sample_og_encode sample_can_write sample_script_file
        sample_machine).2
    !! "/usr/share/fonts/truetype/dejavu/DejaVuSans-Bold.ttf"
  = Some [Byte.x00].
Proof.
  rewrite (X10_generator_writes_one_file nat sample_truetype 0%nat sample_textbbox
             sample_render_text sample_og_encode sample_can_write
             sample_script_file sample_machine _ _
             "/usr/share/fonts/truetype/dejavu/DejaVuSans-Bold.ttf"
             (surjective_pairing _));
    [reflexivity|discriminate].
Defined.

Lemma X16_witness :
  (Generator.script nat sample_truetype 0%nat sample_textbbox sample_render_text
     sample_og_encode sample_read_only sample_script_file true sample_machine).2
  = 1.
Proof.
  destruct (X16_failing_run_prints_nothing nat sample_truetype 0%nat
              sample_textbbox sample_render_text sample_og_encode sample_read_only
              sample_script_file sample_machine _ _ sample_run_read_only)
    as [Hfail _].
  exact (proj1 (Hfail OSError eq_refl)).
Defined.
